(** * carsim.py: the supervisor and line-protocol client of the car simulator

    A shallow embedding of [src/carsim.py].  The module is a Python class
    [Simulator] that owns one external worker process ([./carsim <port>]),
    talks to it over its standard input and output with a small text
    protocol, and restarts it when a write hits a broken pipe.

    Layout of the development:
    - [PyStr]: the [str] builtins the code calls ([rstrip], [split(' ')],
      [startswith], slicing, [%d]);
    - [PyNum]: doubles ([spec_float]), the [%f] conversion, [int(str)] and
      the float grammar behind [np.double(str)];
    - Python values, exceptions and the state/exception monad;
    - the [subprocess.Popen] object as far as the code uses it;
    - the class [Simulator] and the three module-level functions;
    - the properties.

    Text is modelled as [string] (one [ascii] per character); the worker is
    taken to speak ASCII. *)

From Stdlib Require Import ZArith List String Ascii Bool Lia.
From Stdlib Require Import Floats.SpecFloat QArith Qabs.
Import ListNotations.

Local Close Scope Q_scope.
Local Open Scope list_scope.
Local Open Scope string_scope.

(* ================================================================== *)
(** * Python [str] builtins *)
(* ================================================================== *)

Module PyStr.

(** [str.isspace] on ASCII: TAB, LF, VT, FF, CR, FS, GS, RS, US and SPACE. *)
Definition is_space (c : ascii) : bool :=
  let n := nat_of_ascii c in
  (((9 <=? n) && (n <=? 13)) || ((28 <=? n) && (n <=? 32)))%nat.

Definition is_digit (c : ascii) : bool :=
  let n := nat_of_ascii c in ((48 <=? n) && (n <=? 57))%nat.

Definition digit_val (c : ascii) : Z := Z.of_nat (nat_of_ascii c) - 48.

Definition digit_char (d : Z) : ascii := ascii_of_nat (Z.to_nat (48 + d)).

(** [s.rstrip()] *)
Fixpoint rstrip (s : string) : string :=
  match s with
  | EmptyString => EmptyString
  | String c s' =>
      match rstrip s' with
      | EmptyString => if is_space c then EmptyString else String c EmptyString
      | r => String c r
      end
  end.

(** [s.lstrip()] *)
Fixpoint lstrip (s : string) : string :=
  match s with
  | EmptyString => EmptyString
  | String c s' => if is_space c then lstrip s' else s
  end.

Definition strip (s : string) : string := rstrip (lstrip s).

(** [s.startswith(p)] *)
Definition startswith (p s : string) : bool := String.prefix p s.

(** [s[n:]] *)
Fixpoint drop (n : nat) (s : string) : string :=
  match n, s with
  | O, _ => s
  | S n', String _ s' => drop n' s'
  | S _, EmptyString => EmptyString
  end.

(** [s.split(sep)] for a one-character separator: every occurrence of the
    separator cuts, so the result is never empty and two separators in a row
    give an empty piece. *)
Fixpoint split (sep : ascii) (s : string) : list string :=
  match s with
  | EmptyString => [EmptyString]
  | String c s' =>
      if Ascii.eqb c sep then EmptyString :: split sep s'
      else match split sep s' with
           | t :: ts => String c t :: ts
           | [] => [String c EmptyString]
           end
  end.

(** [s.split()] with no argument: runs of whitespace separate, and no empty
    piece is produced. *)
Fixpoint split_ws_aux (s : string) (cur : string) : list string :=
  match s with
  | EmptyString => match cur with EmptyString => [] | _ => [cur] end
  | String c s' =>
      if is_space c
      then match cur with
           | EmptyString => split_ws_aux s' EmptyString
           | _ => cur :: split_ws_aux s' EmptyString
           end
      else split_ws_aux s' (cur ++ String c EmptyString)
  end.

Definition split_ws (s : string) : list string := split_ws_aux s EmptyString.

(** [sep.join(l)] *)
Definition join (sep : string) (l : list string) : string := String.concat sep l.

(** Decimal digits of a non-negative integer, most significant first.  The
    fuel bounds the number of digits. *)
Fixpoint digits_fuel (fuel : nat) (n : Z) (acc : string) : string :=
  match fuel with
  | O => acc
  | S f =>
      let acc' := String (digit_char (n mod 10)) acc in
      if (n <? 10)%Z then acc' else digits_fuel f (n / 10) acc'
  end.

Definition str_of_nonneg (n : Z) : string :=
  digits_fuel (S (Z.to_nat (Z.log2 n))) n EmptyString.

(** ['%d' % z] *)
Definition format_d (z : Z) : string :=
  if (z <? 0)%Z then String "-" (str_of_nonneg (- z)) else str_of_nonneg z.

(** Exactly [k] decimal digits of [n], least significant last. *)
Fixpoint fixed_digits (k : nat) (n : Z) (acc : string) : string :=
  match k with
  | O => acc
  | S k' => fixed_digits k' (n / 10) (String (digit_char (n mod 10)) acc)
  end.

Definition no_space (s : string) : bool :=
  forallb (fun c => negb (is_space c)) (list_ascii_of_string s).

End PyStr.

(* ================================================================== *)
(** * Numbers: doubles, [%f], [int(str)] and [np.double(str)] *)
(* ================================================================== *)

Module PyNum.
Import PyStr.

(** A Python [float] (and a NumPy [np.double]) is an IEEE-754 binary64 value:
    [S754_finite s m e] stands for [(-1)^s * m * 2^e]. *)
Definition double := spec_float.

Definition is_finite (x : double) : bool :=
  match x with
  | S754_zero _ | S754_finite _ _ _ => true
  | S754_infinity _ | S754_nan => false
  end.

(** The exact value of a finite double as a fraction [sf_num / sf_den]. *)
Definition sf_num (m : positive) (e : Z) : Z :=
  if (0 <=? e)%Z then (Zpos m * 2 ^ e)%Z else Zpos m.

Definition sf_den (e : Z) : Z :=
  if (0 <=? e)%Z then 1%Z else (2 ^ (- e))%Z.

Definition value (x : double) : Q :=
  match x with
  | S754_finite s m e =>
      let q := Qmake (sf_num m e) (Z.to_pos (sf_den e)) in
      if s then Qopp q else q
  | _ => 0%Q
  end.

(** Nearest integer to [n / d] for [0 <= n], [0 < d], ties to even. *)
Definition round_half_even (n d : Z) : Z :=
  let q := (n / d)%Z in
  let r := (n mod d)%Z in
  if (2 * r <? d)%Z then q
  else if (d <? 2 * r)%Z then (q + 1)%Z
  else if Z.even q then q else (q + 1)%Z.

(** ** The [%f] conversion *)

Definition sign_str (s : bool) : string := if s then "-" else "".

(** The magnitude in millionths, correctly rounded. *)
Definition millionths (m : positive) (e : Z) : Z :=
  round_half_even (sf_num m e * 1000000) (sf_den e).

Definition format_fixed6 (q : Z) : string :=
  str_of_nonneg (q / 1000000) ++ "." ++ fixed_digits 6 (q mod 1000000) "".

(** ['%f' % x] for a float [x]: six digits after the point, the exact binary
    value rounded to nearest (ties to even); never an exponent.  The special
    values print as [nan], [inf] and [-inf]. *)
Definition format_f (x : double) : string :=
  match x with
  | S754_nan => "nan"
  | S754_infinity s => sign_str s ++ "inf"
  | S754_zero s => sign_str s ++ format_fixed6 0
  | S754_finite s m e => sign_str s ++ format_fixed6 (millionths m e)
  end.

(** ** Rounding a fraction to the nearest double *)

Definition scale (n d e : Z) : Z * Z :=
  if (0 <=? e)%Z then (n, (d * 2 ^ e)%Z) else ((n * 2 ^ (- e))%Z, d).

(** [double_of_ratio neg n d] is the double nearest to [(-1)^neg * n / d]
    ([0 <= n], [0 < d]), ties to even, with gradual underflow and overflow to
    infinity. *)
Definition double_of_ratio (neg : bool) (n d : Z) : double :=
  if (n =? 0)%Z then S754_zero neg
  else
    let e0 := (Z.log2 n - Z.log2 d - 52)%Z in
    let '(a0, b0) := scale n d e0 in
    let e1 := if (a0 <? 2 ^ 52 * b0)%Z then (e0 - 1)%Z else e0 in
    let e2 := Z.max e1 (-1074) in
    let '(a, b) := scale n d e2 in
    let m := round_half_even a b in
    if (m =? 0)%Z then S754_zero neg
    else
      let '(m', e') :=
        if (m =? 2 ^ 53)%Z then ((2 ^ 52)%Z, (e2 + 1)%Z) else (m, e2) in
      if (971 <? e')%Z then S754_infinity neg
      else S754_finite neg (Z.to_pos m') e'.

(** [float(z)] for a Python [int]; [None] stands for [OverflowError]. *)
Definition float_of_int (z : Z) : option double :=
  match double_of_ratio (z <? 0)%Z (Z.abs z) 1 with
  | S754_infinity _ => None
  | x => Some x
  end.

(** ** Numeric literals *)

(** Digits with single underscores between them, as [int] and [float] accept
    them.  Returns the value, the number of digits read and the rest. *)
Fixpoint scan_digits (s : string) (acc : Z) (cnt : nat) : Z * nat * string :=
  match s with
  | String c s' =>
      if is_digit c then scan_digits s' (10 * acc + digit_val c)%Z (S cnt)
      else if (Ascii.eqb c "_" && Nat.ltb 0 cnt)%bool then
        match s' with
        | String d s'' =>
            if is_digit d
            then scan_digits s'' (10 * acc + digit_val d)%Z (S cnt)
            else (acc, cnt, s)
        | EmptyString => (acc, cnt, s)
        end
      else (acc, cnt, s)
  | EmptyString => (acc, cnt, s)
  end.

Definition scan_sign (s : string) : bool * string :=
  match s with
  | String "-" r => (true, r)
  | String "+" r => (false, r)
  | _ => (false, s)
  end.

(** [int(s)]; [None] stands for [ValueError]. *)
Definition int_of_str (s : string) : option Z :=
  let '(neg, r) := scan_sign (strip s) in
  match scan_digits r 0 0 with
  | (v, S _, EmptyString) => Some (if neg then (- v)%Z else v)
  | _ => None
  end.

Definition lower (c : ascii) : ascii :=
  let n := nat_of_ascii c in
  if ((65 <=? n) && (n <=? 90))%nat then ascii_of_nat (n + 32) else c.

Fixpoint lowercase (s : string) : string :=
  match s with
  | EmptyString => EmptyString
  | String c s' => String (lower c) (lowercase s')
  end.

(** What a float literal denotes before it is rounded to a double:
    [LitNum neg m k] is [(-1)^neg * m * 10^k]. *)
Inductive literal :=
| LitNum (neg : bool) (mant : Z) (exp10 : Z)
| LitInf (neg : bool)
| LitNan.

Definition scan_exponent (s : string) : option Z :=
  match s with
  | EmptyString => Some 0%Z
  | String c r =>
      if (Ascii.eqb c "e" || Ascii.eqb c "E")%bool then
        let '(eneg, r') := scan_sign r in
        match scan_digits r' 0 0 with
        | (v, S _, EmptyString) => Some (if eneg then (- v)%Z else v)
        | _ => None
        end
      else None
  end.

(** The grammar of [float(s)]: optional sign, then [inf], [infinity] or [nan]
    in any case, or digits with an optional fraction and exponent. *)
Definition parse_literal (s : string) : option literal :=
  let '(neg, r) := scan_sign (strip s) in
  let lr := lowercase r in
  if ((lr =? "inf") || (lr =? "infinity"))%string then Some (LitInf neg)
  else if (lr =? "nan")%string then Some LitNan
  else
    let '(iv, ic, r1) := scan_digits r 0 0 in
    let '(fv, fc, r2) :=
      match r1 with
      | String "." r1' => scan_digits r1' iv 0
      | _ => (iv, O, r1)
      end in
    match (ic + fc)%nat with
    | O => None
    | S _ =>
        match scan_exponent r2 with
        | Some ex => Some (LitNum neg fv (ex - Z.of_nat fc))
        | None => None
        end
    end.

Definition literal_value (l : literal) : Q :=
  match l with
  | LitNum neg m k =>
      let q := if (0 <=? k)%Z then inject_Z (m * 10 ^ k)
               else Qmake m (Z.to_pos (10 ^ (- k))) in
      if neg then Qopp q else q
  | _ => 0%Q
  end.

Definition double_of_literal (l : literal) : double :=
  match l with
  | LitNum neg m k =>
      if (0 <=? k)%Z then double_of_ratio neg (m * 10 ^ k) 1
      else double_of_ratio neg m (10 ^ (- k))
  | LitInf neg => S754_infinity neg
  | LitNan => S754_nan
  end.

(** [np.double(s)] on a [str]: NumPy hands the string to the [float]
    constructor; [None] stands for [ValueError]. *)
Definition np_double (s : string) : option double :=
  option_map double_of_literal (parse_literal s).

(** ** Shapes of rendered numbers *)

Definition all_digits (s : string) : bool :=
  forallb is_digit (list_ascii_of_string s).

(** Fixed notation with six decimals: [-]D+.DDDDDD *)
Definition is_fixed_point (s : string) : bool :=
  let body := match s with String "-" r => r | _ => s end in
  match split "." body with
  | [i; f] =>
      (negb (i =? "")%string && all_digits i && all_digits f
       && Nat.eqb (String.length f) 6)%bool
  | _ => false
  end.

(** Scientific notation shows as an exponent marker. *)
Definition has_exponent (s : string) : bool :=
  existsb (fun c => (Ascii.eqb c "e" || Ascii.eqb c "E")%bool)
          (list_ascii_of_string s).

End PyNum.


Import PyStr PyNum.

(* ================================================================== *)
(** * Python values, exceptions and results *)
(* ================================================================== *)

(** The values a caller can pass.  A NumPy array of doubles behaves in this
    code as a list of [np.double]. *)
#[local] Set Warnings "-register-all".
Inductive pyval :=
| PyNone
| PyBool (b : bool)
| PyInt (z : Z)
| PyFloat (x : double)
| PyNpDouble (x : double)
| PyStr (s : string)
| PyList (l : list pyval)
| PyTuple (l : list pyval).

(** What the methods return: [None] or a two-dimensional array of doubles. *)
Inductive retval :=
| RNone
| RMatrix (rows : list (list double)).

Inductive exn :=
| BrokenPipeError
| OSError
| TimeoutExpired
| AssertionError (msg : string)
| SimulationError (msg : string)
| SimulatorError (msg : string)
| ValueError
| TypeError
| IndexError
| OverflowError
| AttributeError.

(** The class of an exception, which is what [except] clauses and callers
    dispatch on. *)
Inductive exn_class :=
| CBrokenPipeError | COSError | CTimeoutExpired | CAssertionError
| CSimulationError | CSimulatorError | CValueError | CTypeError
| CIndexError | COverflowError | CAttributeError.

Definition class_of (e : exn) : exn_class :=
  match e with
  | BrokenPipeError => CBrokenPipeError
  | OSError => COSError
  | TimeoutExpired => CTimeoutExpired
  | AssertionError _ => CAssertionError
  | SimulationError _ => CSimulationError
  | SimulatorError _ => CSimulatorError
  | ValueError => CValueError
  | TypeError => CTypeError
  | IndexError => CIndexError
  | OverflowError => COverflowError
  | AttributeError => CAttributeError
  end.

(** [isinstance(e, OSError)]: [BrokenPipeError] is a subclass. *)
Definition is_OSError (e : exn) : bool :=
  match e with
  | BrokenPipeError | OSError => true
  | _ => false
  end.

Definition is_BrokenPipeError (e : exn) : bool :=
  match e with
  | BrokenPipeError => true
  | _ => false
  end.

Inductive result (A : Type) :=
| Ok (a : A)
| Raise (e : exn).
Arguments Ok {A} a.
Arguments Raise {A} e.

Definition rbind {A B} (r : result A) (k : A -> result B) : result B :=
  match r with
  | Ok a => k a
  | Raise e => Raise e
  end.

Notation "x <-? r ;; k" := (rbind r (fun x => k))
  (at level 61, r at next level, right associativity).
Notation "r ;;? k" := (rbind r (fun _ => k))
  (at level 61, right associativity).
Notation "' pat <-? r ;; k" :=
  (rbind r (fun x => match x with pat => k end))
  (at level 61, pat pattern, r at next level, right associativity).

(** ** Builtins on values *)

(** [type(value) in NUM_T], with [NUM_T = [int, float, int, float, np.double]].
    [bool] is a subclass of [int] but not [int] itself. *)
Definition is_num (v : pyval) : bool :=
  match v with
  | PyInt _ | PyFloat _ | PyNpDouble _ => true
  | _ => false
  end.

(** [hasattr(value, '__len__')] *)
Definition has_len (v : pyval) : bool :=
  match v with
  | PyStr _ | PyList _ | PyTuple _ => true
  | _ => false
  end.

(** The items an iteration over the value yields; a [str] yields its
    characters as one-character strings. *)
Definition items (v : pyval) : option (list pyval) :=
  match v with
  | PyList l | PyTuple l => Some l
  | PyStr s => Some (map (fun c => PyStr (String c EmptyString))
                         (list_ascii_of_string s))
  | _ => None
  end.

(** [len(value)] *)
Definition py_len (v : pyval) : result nat :=
  match items v with
  | Some l => Ok (List.length l)
  | None => Raise TypeError
  end.

(** [value[i]] for a non-negative index *)
Definition getitem (v : pyval) (i : nat) : result pyval :=
  match items v with
  | Some l => match nth_error l i with
              | Some x => Ok x
              | None => Raise IndexError
              end
  | None => Raise TypeError
  end.

(** The argument conversion of [%f]: anything with [__float__]. *)
Definition float_arg (v : pyval) : result double :=
  match v with
  | PyFloat x | PyNpDouble x => Ok x
  | PyInt z => match float_of_int z with
               | Some x => Ok x
               | None => Raise OverflowError
               end
  | PyBool b => Ok (if b then S754_finite false 4503599627370496 (-52)
                    else S754_zero false)
  | _ => Raise TypeError
  end.

(** [a, b, c, d, e = car] *)
Definition unpack5 (car : pyval)
  : result (pyval * pyval * pyval * pyval * pyval) :=
  match items car with
  | Some [a; b; c; d; e] => Ok (a, b, c, d, e)
  | Some _ => Raise ValueError
  | None => Raise TypeError
  end.

(* ================================================================== *)
(** * The outside world: worker processes, randomness, the exit hook *)
(* ================================================================== *)

(** How one [./carsim] process behaves, as far as its parent can observe. *)
Record script := {
  (** the lines it prints, each as [readline] returns it; then end of file *)
  sc_replies : list string;
  (** whether the n-th [write] or [flush] on its stdin finds the pipe broken *)
  sc_broken : nat -> bool;
  (** time it takes to exit once its stdin is closed; [None]: it never does *)
  sc_exit_delay : option Z
}.

Inductive status := Running | Killed | Exited.

(** A [subprocess.Popen] object. *)
Record proc := {
  p_pid : nat;
  p_args : list string;
  p_script : script;
  p_out : list string;        (** output not yet read *)
  p_nio : nat;                (** writes and flushes issued on stdin *)
  p_stdin_closed : bool;
  p_stdout_closed : bool;
  p_status : status
}.

(** What the program does to the world, newest first in a trace. *)
Inductive event :=
| EvRandint (lo hi v : Z)
| EvSpawn (pid : nat) (args : list string)
| EvSpawnFailed (args : list string)
| EvWrite (pid : nat) (text : string) (ok : bool)
| EvFlush (pid : nat) (ok : bool)
| EvReadline (pid : nat) (line : string)
| EvCommunicate (pid : nat) (timeout : Z) (exited : bool)
| EvKill (pid : nat)
| EvAtexit.

(** The choices the world makes: the entropy behind the n-th
    [random.randint], and whether the n-th [Popen] starts a process (and how
    that process behaves) or fails with [OSError]. *)
Record environment := {
  env_entropy : nat -> Z;
  env_popen : nat -> option script
}.

(** The [Simulator] object ([_worker], [port]) together with the world it
    acts on. *)
Record state := {
  _worker : option proc;      (** [self._worker] *)
  port : option Z;            (** [self.port], unset before the first restart *)
  n_rand : nat;               (** calls to [random.randint] so far *)
  n_popen : nat;              (** calls to [Popen] so far *)
  hooks : nat;                (** [atexit] registrations of [self._shutdown] *)
  trace : list event;
  env : environment
}.

Definition set_worker (w : option proc) (s : state) : state :=
  {| _worker := w; port := port s; n_rand := n_rand s; n_popen := n_popen s;
     hooks := hooks s; trace := trace s; env := env s |}.

Definition set_port (p : Z) (s : state) : state :=
  {| _worker := _worker s; port := Some p; n_rand := n_rand s;
     n_popen := n_popen s; hooks := hooks s; trace := trace s; env := env s |}.

Definition log (e : event) (s : state) : state :=
  {| _worker := _worker s; port := port s; n_rand := n_rand s;
     n_popen := n_popen s; hooks := hooks s; trace := e :: trace s;
     env := env s |}.

Definition tick_rand (s : state) : state :=
  {| _worker := _worker s; port := port s; n_rand := S (n_rand s);
     n_popen := n_popen s; hooks := hooks s; trace := trace s; env := env s |}.

Definition tick_popen (s : state) : state :=
  {| _worker := _worker s; port := port s; n_rand := n_rand s;
     n_popen := S (n_popen s); hooks := hooks s; trace := trace s;
     env := env s |}.

Definition add_hook (s : state) : state :=
  {| _worker := _worker s; port := port s; n_rand := n_rand s;
     n_popen := n_popen s; hooks := S (hooks s); trace := trace s;
     env := env s |}.

(** The state before the module is imported. *)
Definition initial (e : environment) : state :=
  {| _worker := None; port := None; n_rand := 0; n_popen := 0; hooks := 0;
     trace := []; env := e |}.

(** ** The state and exception monad

    A computation takes the state and gives a result or an exception, and
    the state it left behind: an exception does not undo effects. *)
Definition M (A : Type) : Type := state -> result A * state.

Definition ret {A} (a : A) : M A := fun s => (Ok a, s).

Definition raise {A} (e : exn) : M A := fun s => (Raise e, s).

Definition bind {A B} (m : M A) (k : A -> M B) : M B :=
  fun s =>
    match m s with
    | (Ok a, s') => k a s'
    | (Raise e, s') => (Raise e, s')
    end.

Definition lift {A} (r : result A) : M A := fun s => (r, s).

Definition gets {A} (f : state -> A) : M A := fun s => (Ok (f s), s).

Definition modify (f : state -> state) : M unit := fun s => (Ok tt, f s).

(** [try: m except <handled>: h] *)
Definition try_except {A} (m : M A) (handled : exn -> bool) (h : M A) : M A :=
  fun s =>
    match m s with
    | (Raise e, s') => if handled e then h s' else (Raise e, s')
    | r => r
    end.

Notation "x <- m ;; k" := (bind m (fun x => k))
  (at level 61, m at next level, right associativity).
Notation "m ;; k" := (bind m (fun _ => k))
  (at level 61, right associativity).
Notation "' pat <- m ;; k" :=
  (bind m (fun x => match x with pat => k end))
  (at level 61, pat pattern, m at next level, right associativity).

(** ** [random.randint] *)

(** [random.randint(lo, hi)]: an integer of [[lo, hi]], both ends included,
    drawn from the generator's entropy. *)
Definition randint (lo hi : Z) : M Z :=
  fun s =>
    let v := (lo + env_entropy (env s) (n_rand s) mod (hi - lo + 1))%Z in
    (Ok v, log (EvRandint lo hi v) (tick_rand s)).

(** ** [subprocess.Popen] *)

Definition spawn (pid : nat) (args : list string) (sc : script) : proc :=
  {| p_pid := pid; p_args := args; p_script := sc; p_out := sc_replies sc;
     p_nio := 0; p_stdin_closed := false; p_stdout_closed := false;
     p_status := Running |}.

(** [Popen(args, stdin=PIPE, stdout=PIPE, universal_newlines=True)] *)
Definition Popen (args : list string) : M proc :=
  fun s =>
    let k := n_popen s in
    match env_popen (env s) k with
    | Some sc => (Ok (spawn k args sc), log (EvSpawn k args) (tick_popen s))
    | None => (Raise OSError, log (EvSpawnFailed args) (tick_popen s))
    end.

Definition with_nio (p : proc) : proc :=
  {| p_pid := p_pid p; p_args := p_args p; p_script := p_script p;
     p_out := p_out p; p_nio := S (p_nio p);
     p_stdin_closed := p_stdin_closed p;
     p_stdout_closed := p_stdout_closed p; p_status := p_status p |}.

Definition with_out (o : list string) (p : proc) : proc :=
  {| p_pid := p_pid p; p_args := p_args p; p_script := p_script p;
     p_out := o; p_nio := p_nio p; p_stdin_closed := p_stdin_closed p;
     p_stdout_closed := p_stdout_closed p; p_status := p_status p |}.

Definition with_closed (cin cout : bool) (st : status) (p : proc) : proc :=
  {| p_pid := p_pid p; p_args := p_args p; p_script := p_script p;
     p_out := p_out p; p_nio := p_nio p; p_stdin_closed := cin;
     p_stdout_closed := cout; p_status := st |}.

(** [self._worker.<attr>]: [None] has no attributes. *)
Definition worker : M proc :=
  fun s =>
    match _worker s with
    | Some p => (Ok p, s)
    | None => (Raise AttributeError, s)
    end.

(** [self._worker.stdin.write(text)] *)
Definition stdin_write (text : string) : M unit :=
  p <- worker ;;
  if p_stdin_closed p then raise ValueError
  else if sc_broken (p_script p) (p_nio p)
  then modify (fun s => log (EvWrite (p_pid p) text false)
                            (set_worker (Some (with_nio p)) s)) ;;
       raise BrokenPipeError
  else modify (fun s => log (EvWrite (p_pid p) text true)
                            (set_worker (Some (with_nio p)) s)).

(** [self._worker.stdin.flush()] *)
Definition stdin_flush : M unit :=
  p <- worker ;;
  if p_stdin_closed p then raise ValueError
  else if sc_broken (p_script p) (p_nio p)
  then modify (fun s => log (EvFlush (p_pid p) false)
                            (set_worker (Some (with_nio p)) s)) ;;
       raise BrokenPipeError
  else modify (fun s => log (EvFlush (p_pid p) true)
                            (set_worker (Some (with_nio p)) s)).

(** [self._worker.stdout.readline()]: the next line with its newline, or the
    empty string at end of file. *)
Definition stdout_readline : M string :=
  p <- worker ;;
  if p_stdout_closed p then raise ValueError
  else
    let '(line, rest) := match p_out p with
                         | l :: r => (l, r)
                         | [] => (EmptyString, [])
                         end in
    modify (fun s => log (EvReadline (p_pid p) line)
                         (set_worker (Some (with_out rest p)) s)) ;;
    ret line.

(** [self._worker.communicate(timeout=t)]: closes stdin, drains stdout and
    waits for the process; raises [TimeoutExpired] when the process is still
    running after [t].  A process already gone is reaped at once, and a
    second call on a finished object finds nothing left to do. *)
Definition communicate (t : Z) : M unit :=
  p <- worker ;;
  let exits := match p_status p with
               | Running => match sc_exit_delay (p_script p) with
                            | Some d => (d <=? t)%Z
                            | None => false
                            end
               | Killed | Exited => true
               end in
  if exits
  then modify (fun s => log (EvCommunicate (p_pid p) t true)
                            (set_worker (Some (with_closed true true Exited p)) s))
  else modify (fun s => log (EvCommunicate (p_pid p) t false)
                            (set_worker
                               (Some (with_closed true (p_stdout_closed p)
                                                  Running p)) s)) ;;
       raise TimeoutExpired.

(** [self._worker.kill()]: a signal to a process not yet reaped, nothing
    otherwise. *)
Definition kill : M unit :=
  p <- worker ;;
  match p_status p with
  | Exited => ret tt
  | Running | Killed =>
      modify (fun s => log (EvKill (p_pid p))
                           (set_worker
                              (Some (with_closed (p_stdin_closed p)
                                                 (p_stdout_closed p) Killed p))
                              s))
  end.

(** [atexit.register(self._shutdown)] *)
Definition atexit_register : M unit :=
  modify (fun s => log EvAtexit (add_hook s)).

(* ================================================================== *)
(** * The class [Simulator] *)
(* ================================================================== *)

(** The private methods keep their names; the three public methods live in
    the module [Simulator] below, next to the module-level functions of the
    same names. *)

(** [Simulator._shutdown] *)
Definition _shutdown : M unit :=
  w <- gets _worker ;;
  match w with
  | None => raise (AssertionError "")
  | Some _ => try_except (communicate 10)
                         (fun e => match e with TimeoutExpired => true | _ => false end)
                         kill
  end.

(** [Simulator._restart] *)
Definition _restart : M unit :=
  w <- gets _worker ;;
  match w with
  | Some _ => _shutdown
  | None => ret tt
  end ;;
  p <- randint 1025 0xffff ;;
  modify (set_port p) ;;
  try_except
    (h <- Popen ["./carsim"; format_d p] ;;
     modify (set_worker (Some h)))
    is_OSError
    (raise (SimulatorError
              "There was an unexpected error starting the simulator ☹")).

(** [Simulator._start_worker] *)
Definition _start_worker : M unit :=
  modify (set_worker None) ;;
  _restart ;;
  atexit_register.

(** The decorator [restart_on_broken_pipe]: run the method; on
    [BrokenPipeError] restart the worker and run the method again. *)
Definition restart_on_broken_pipe {A} (m : M A) : M A :=
  try_except m is_BrokenPipeError (_restart ;; m).

(** [Simulator._check_num] *)
Definition _check_num (label : string) (value : pyval) : result unit :=
  if is_num value then Ok tt
  else Raise (AssertionError (label ++ " should be a number")).

(** The loop [for idx, entry in enumerate(value)] of [_check_nums]. *)
Fixpoint check_entries (label : string) (idx : nat) (l : list pyval)
  : result unit :=
  match l with
  | [] => Ok tt
  | entry :: l' =>
      _check_num (label ++ "[" ++ format_d (Z.of_nat idx) ++ "]") entry ;;?
      check_entries label (S idx) l'
  end.

(** [Simulator._check_nums] *)
Definition _check_nums (label : string) (length : nat) (value : pyval)
  : result unit :=
  if negb (has_len value)
  then Raise (AssertionError
                (label ++ " should be a container (a list or an array)"))
  else
    n <-? py_len value ;;
    if negb (Nat.eqb n length)
    then Raise (AssertionError
                  (label ++ " should have length "
                         ++ format_d (Z.of_nat length)))
    else match items value with
         | Some l => check_entries label 0 l
         | None => Raise TypeError
         end.

(** [Simulator._send] *)
Definition _send (cmd : string) : M unit :=
  stdin_write cmd ;;
  stdin_flush.

(** The format string of [_car_spec] applied to its operands: one [" %f"]
    per operand, then the newline. *)
Fixpoint format_operands (vs : list pyval) : result string :=
  match vs with
  | [] => Ok (String "010" EmptyString)
  | v :: vs' =>
      x <-? float_arg v ;;
      rest <-? format_operands vs' ;;
      Ok (" " ++ format_f x ++ rest)
  end.

(** The fifteen operands of a car, in the order of the format string. *)
Definition operands (frame_width upper_shape lower_shape left_wheel
                     right_wheel : pyval) : result (list pyval) :=
  u0 <-? getitem upper_shape 0 ;;
  u1 <-? getitem upper_shape 1 ;;
  u2 <-? getitem upper_shape 2 ;;
  u3 <-? getitem upper_shape 3 ;;
  u4 <-? getitem upper_shape 4 ;;
  l0 <-? getitem lower_shape 0 ;;
  l1 <-? getitem lower_shape 1 ;;
  l2 <-? getitem lower_shape 2 ;;
  l3 <-? getitem lower_shape 3 ;;
  l4 <-? getitem lower_shape 4 ;;
  a0 <-? getitem left_wheel 0 ;;
  a1 <-? getitem left_wheel 1 ;;
  b0 <-? getitem right_wheel 0 ;;
  b1 <-? getitem right_wheel 1 ;;
  Ok [frame_width; u0; u1; u2; u3; u4; l0; l1; l2; l3; l4; a0; a1; b0; b1].

(** [Simulator._car_spec] *)
Definition _car_spec (frame_width upper_shape lower_shape left_wheel
                      right_wheel : pyval) : result string :=
  vs <-? operands frame_width upper_shape lower_shape left_wheel right_wheel ;;
  format_operands vs.

(** [Simulator._recv] *)
Definition _recv : M string :=
  raw <- stdout_readline ;;
  let line := rstrip raw in
  if startswith "ERR " line then raise (SimulationError (drop 4 line))
  else ret line.

(** [[ np.double(t) for t in tokens ]] *)
Fixpoint parse_tokens (tokens : list string) : result (list double) :=
  match tokens with
  | [] => Ok []
  | t :: ts =>
      match np_double t with
      | Some x => xs <-? parse_tokens ts ;; Ok (x :: xs)
      | None => Raise ValueError
      end
  end.

(** [out[i] = values] for a row of [width] columns: NumPy takes a list of
    that length, spreads a single value over the row, and refuses any other
    length. *)
Definition assign_row (width : nat) (values : list double)
  : result (list double) :=
  if Nat.eqb (List.length values) width then Ok values
  else match values with
       | [x] => Ok (repeat x width)
       | _ => Raise ValueError
       end.

(** The loop shared by [_recv_states] and [_recv_scores]: [n] more rows, each
    read with a bare [readline]. *)
Fixpoint recv_rows (width n : nat) : M (list (list double)) :=
  match n with
  | O => ret []
  | S n' =>
      raw <- stdout_readline ;;
      values <- lift (parse_tokens (split " " (rstrip raw))) ;;
      row <- lift (assign_row width values) ;;
      rest <- recv_rows width n' ;;
      ret (row :: rest)
  end.

(** [Simulator._recv_states]; [np.zeros] refuses a negative dimension. *)
Definition _recv_states (state_num : Z) : M retval :=
  if (state_num <? 0)%Z then raise ValueError
  else
    rows <- recv_rows 3 (Z.to_nat state_num) ;;
    ret (RMatrix rows).

(** The per-car loop of [_check_cars]. *)
Fixpoint check_each_car (idx : nat) (cars : list pyval) : result unit :=
  match cars with
  | [] => Ok tt
  | car :: cars' =>
      '(frame_width, upper_shape, lower_shape, left_wheel, right_wheel)
        <-? unpack5 car ;;
      let n := format_d (Z.of_nat idx) in
      _check_num ("frame_width of car " ++ n) frame_width ;;?
      _check_nums ("upper_shape of car " ++ n) 5 upper_shape ;;?
      _check_nums ("lower_shape of car " ++ n) 5 lower_shape ;;?
      _check_nums ("left_wheel of car " ++ n) 2 left_wheel ;;?
      _check_nums ("right_wheel of car " ++ n) 2 right_wheel ;;?
      check_each_car (S idx) cars'
  end.

(** [Simulator._check_cars] *)
Definition _check_cars (cars : pyval) : result unit :=
  if negb (has_len cars) then Raise (AssertionError "cars should be a list")
  else
    n <-? py_len cars ;;
    if negb (Nat.ltb 0 n)
    then Raise (AssertionError "cars should not be an empty list")
    else if negb (Nat.leb n 100)
    then Raise (AssertionError
      "you have provided too many cars (use a number less or equal to 100)")
    else match items cars with
         | Some l => check_each_car 0 l
         | None => Raise TypeError
         end.

(** The loop of [_send_race]: one [write] per car. *)
Fixpoint write_cars (cars : list pyval) : M unit :=
  match cars with
  | [] => ret tt
  | car :: cars' =>
      '(frame_width, upper_shape, lower_shape, left_wheel, right_wheel)
        <- lift (unpack5 car) ;;
      spec <- lift (_car_spec frame_width upper_shape lower_shape left_wheel
                              right_wheel) ;;
      stdin_write spec ;;
      write_cars cars'
  end.

(** [Simulator._send_race] *)
Definition _send_race (cars : pyval) : M unit :=
  _ <- worker ;;
  n <- lift (py_len cars) ;;
  stdin_write ("RACE " ++ format_d (Z.of_nat n)) ;;
  match items cars with
  | Some l => write_cars l
  | None => raise TypeError
  end ;;
  stdin_flush.

(** [Simulator._recv_scores] *)
Definition _recv_scores (car_num : nat) : M retval :=
  head <- _recv ;;
  values <- lift (parse_tokens (split " " head)) ;;
  match car_num with
  | O => raise IndexError
  | S n =>
      row <- lift (assign_row 2 values) ;;
      rest <- recv_rows 2 n ;;
      ret (RMatrix (row :: rest))
  end.

(** [int(s)] on a [str] *)
Definition py_int (s : string) : result Z :=
  match int_of_str s with
  | Some z => Ok z
  | None => Raise ValueError
  end.

Module Simulator.

(** The body of [Simulator.simulate], before decoration. *)
Definition simulate_body (frame_width upper_shape lower_shape left_wheel
                          right_wheel : pyval) : M retval :=
  lift (_check_num "frame_width" frame_width) ;;
  lift (_check_nums "upper_shape" 5 upper_shape) ;;
  lift (_check_nums "lower_shape" 5 lower_shape) ;;
  lift (_check_nums "left_wheel" 2 left_wheel) ;;
  lift (_check_nums "right_wheel" 2 right_wheel) ;;
  spec <- lift (_car_spec frame_width upper_shape lower_shape left_wheel
                          right_wheel) ;;
  _send ("SIM" ++ spec) ;;
  line <- _recv ;;
  state_num <- lift (py_int line) ;;
  _recv_states state_num.

(** The body of [Simulator.race]. *)
Definition race_body (cars : pyval) : M retval :=
  lift (_check_cars cars) ;;
  _send_race cars ;;
  n <- lift (py_len cars) ;;
  _recv_scores n.

(** The body of [Simulator.new_track]. *)
Definition new_track_body : M retval :=
  stdin_write ("TRACK" ++ String "010" EmptyString) ;;
  stdin_flush ;;
  line <- _recv ;;
  if negb (line =? "DONE")%string
  then raise (SimulatorError
                "the simulator was not able to generate a new track ☹")
  else ret RNone.

(** [Simulator.__init__] *)
Definition __init__ : M unit := _start_worker.

(** [@restart_on_broken_pipe def simulate(self, ...)] *)
Definition simulate (frame_width upper_shape lower_shape left_wheel
                     right_wheel : pyval) : M retval :=
  restart_on_broken_pipe
    (simulate_body frame_width upper_shape lower_shape left_wheel right_wheel).

(** [@restart_on_broken_pipe def race(self, cars)] *)
Definition race (cars : pyval) : M retval :=
  restart_on_broken_pipe (race_body cars).

(** [@restart_on_broken_pipe def new_track(self)] *)
Definition new_track : M retval :=
  restart_on_broken_pipe new_track_body.

End Simulator.

(* ================================================================== *)
(** * The module-level functions *)
(* ================================================================== *)

(** [_simulator = Simulator()], executed when the module is imported. *)
Definition import_module (e : environment) : result unit * state :=
  Simulator.__init__ (initial e).

(** [simulate]: calls the method and falls off the end of the function. *)
Definition simulate (frame_width upper_shape lower_shape left_wheel
                     right_wheel : pyval) : M retval :=
  Simulator.simulate frame_width upper_shape lower_shape left_wheel
                     right_wheel ;;
  ret RNone.

(** [race]: [return _simulator.race(cars)] *)
Definition race (cars : pyval) : M retval := Simulator.race cars.

(** [new_track]: [return _simulator.new_track()] *)
Definition new_track : M retval := Simulator.new_track.

(** The interpreter's exit: every registered hook runs [_shutdown]; an
    exception in a hook is reported and does not stop the others. *)
Fixpoint run_hooks (n : nat) : M (list (result unit)) :=
  match n with
  | O => ret []
  | S n' => fun s =>
      let '(r, s1) := _shutdown s in
      let '(rs, s2) := run_hooks n' s1 in
      (match rs with Ok l => Ok (r :: l) | Raise e => Raise e end, s2)
  end.

Definition interpreter_exit : M (list (result unit)) :=
  n <- gets hooks ;;
  run_hooks n.

(* ================================================================== *)
(** * Reasoning about computations *)
(* ================================================================== *)

Lemma bind_assoc {A B C} (m : M A) (f : A -> M B) (g : B -> M C) (s : state) :
  bind (bind m f) g s = bind m (fun a => bind (f a) g) s.
Proof.
  unfold bind. destruct (m s) as [[a|e] s1]; reflexivity.
Qed.

Lemma bind_ok {A B} (m : M A) (k : A -> M B) s a s1 :
  m s = (Ok a, s1) -> bind m k s = k a s1.
Proof. intros H. unfold bind. now rewrite H. Qed.

Lemma bind_raise {A B} (m : M A) (k : A -> M B) s e s1 :
  m s = (Raise e, s1) -> bind m k s = (Raise e, s1).
Proof. intros H. unfold bind. now rewrite H. Qed.

(** [keeps P m]: the computation [m] leaves a state satisfying [P] in a state
    satisfying [P], whether it returns or raises. *)
Definition keeps {A} (P : state -> Prop) (m : M A) : Prop :=
  forall s, P s -> P (snd (m s)).

Section Keeps.
Variable P : state -> Prop.

Lemma keeps_ret {A} (a : A) : keeps P (ret a).
Proof. intros s H. exact H. Qed.

Lemma keeps_raise {A} (e : exn) : keeps P (@raise A e).
Proof. intros s H. exact H. Qed.

Lemma keeps_lift {A} (r : result A) : keeps P (lift r).
Proof. intros s H. exact H. Qed.

Lemma keeps_gets {A} (f : state -> A) : keeps P (gets f).
Proof. intros s H. exact H. Qed.

Lemma keeps_modify (f : state -> state) :
  (forall s, P s -> P (f s)) -> keeps P (modify f).
Proof. intros Hf s H. apply Hf, H. Qed.

Lemma keeps_bind {A B} (m : M A) (k : A -> M B) :
  keeps P m -> (forall a, keeps P (k a)) -> keeps P (bind m k).
Proof.
  intros Hm Hk s H. unfold bind.
  specialize (Hm s H). destruct (m s) as [[a|e] s1]; simpl in *.
  - apply Hk, Hm.
  - exact Hm.
Qed.

Lemma keeps_try_except {A} (m : M A) (handled : exn -> bool) (h : M A) :
  keeps P m -> keeps P h -> keeps P (try_except m handled h).
Proof.
  intros Hm Hh s H. unfold try_except.
  specialize (Hm s H). destruct (m s) as [[a|e] s1]; simpl in *.
  - exact Hm.
  - destruct (handled e); [apply Hh, Hm | exact Hm].
Qed.

Lemma keeps_worker : keeps P worker.
Proof. intros s H. unfold worker. destruct (_worker s); exact H. Qed.
End Keeps.

Create HintDb keeps.

#[local] Hint Resolve keeps_ret keeps_raise keeps_lift keeps_gets keeps_worker
  : keeps.

(** Splits a computation along its binds and branches. *)
Ltac keeps_step :=
  match goal with
  | |- keeps _ (bind _ _) => apply keeps_bind; [ | intros ? ]
  | |- keeps _ (try_except _ _ _) => apply keeps_try_except
  | |- keeps _ (if ?b then _ else _) => destruct b
  | |- keeps _ (match ?x with _ => _ end) => destruct x
  | |- keeps _ (let '(_, _) := ?x in _) => destruct x
  end.

Ltac keeps_auto := repeat keeps_step; auto with keeps.

(** ** Properties of the state that I/O on the current worker leaves alone *)

(** [io_stable P]: [P] does not look at the worker object or at the trace
    beyond what bookkeeping of reads and writes changes. *)
Definition io_stable (P : state -> Prop) : Prop :=
  forall s p e,
    P s ->
    (match e with
     | EvWrite _ _ _ | EvFlush _ _ | EvReadline _ _ => True
     | _ => False
     end) ->
    (forall q, _worker s = Some q -> p_pid p = p_pid q) ->
    P (log e (set_worker (Some p) s)).

Section IoStable.
Variable P : state -> Prop.
Hypothesis HP : io_stable P.

Lemma keeps_stdin_write text : keeps P (stdin_write text).
Proof.
  intros s H. unfold stdin_write, bind, worker.
  destruct (_worker s) as [p|] eqn:Hw; [ | exact H ].
  destruct (p_stdin_closed p); [ exact H | ].
  destruct (sc_broken (p_script p) (p_nio p)); simpl;
    apply HP; auto; intros q Hq; rewrite Hw in Hq; injection Hq as <-;
    reflexivity.
Qed.

Lemma keeps_stdin_flush : keeps P stdin_flush.
Proof.
  intros s H. unfold stdin_flush, bind, worker.
  destruct (_worker s) as [p|] eqn:Hw; [ | exact H ].
  destruct (p_stdin_closed p); [ exact H | ].
  destruct (sc_broken (p_script p) (p_nio p)); simpl;
    apply HP; auto; intros q Hq; rewrite Hw in Hq; injection Hq as <-;
    reflexivity.
Qed.

Lemma keeps_stdout_readline : keeps P stdout_readline.
Proof.
  intros s H. unfold stdout_readline, bind, worker.
  destruct (_worker s) as [p|] eqn:Hw; [ | exact H ].
  destruct (p_stdout_closed p); [ exact H | ].
  destruct (p_out p) as [|l r]; simpl;
    apply HP; auto; intros q Hq; rewrite Hw in Hq; injection Hq as <-;
    reflexivity.
Qed.

Hint Resolve keeps_stdin_write keeps_stdin_flush keeps_stdout_readline
  : keeps.

Lemma keeps_send cmd : keeps P (_send cmd).
Proof. unfold _send. keeps_auto. Qed.

Lemma keeps_recv : keeps P _recv.
Proof. unfold _recv. keeps_auto. Qed.

Lemma keeps_recv_rows width n : keeps P (recv_rows width n).
Proof. induction n; simpl; keeps_auto. Qed.

Hint Resolve keeps_send keeps_recv keeps_recv_rows : keeps.

Lemma keeps_recv_states n : keeps P (_recv_states n).
Proof. unfold _recv_states. keeps_auto. Qed.

Lemma keeps_recv_scores n : keeps P (_recv_scores n).
Proof. unfold _recv_scores. keeps_auto. Qed.

Lemma keeps_write_cars l : keeps P (write_cars l).
Proof. induction l; simpl; keeps_auto. Qed.

Hint Resolve keeps_recv_states keeps_recv_scores keeps_write_cars : keeps.

Lemma keeps_send_race cars : keeps P (_send_race cars).
Proof. unfold _send_race. keeps_auto. Qed.

Hint Resolve keeps_send_race : keeps.

Lemma keeps_simulate_body a b c d e :
  keeps P (Simulator.simulate_body a b c d e).
Proof. unfold Simulator.simulate_body. keeps_auto. Qed.

Lemma keeps_race_body cars : keeps P (Simulator.race_body cars).
Proof. unfold Simulator.race_body. keeps_auto. Qed.

Lemma keeps_new_track_body : keeps P Simulator.new_track_body.
Proof. unfold Simulator.new_track_body. keeps_auto. Qed.
End IoStable.

(* ================================================================== *)
(** * The public operations, uniformly *)
(* ================================================================== *)

Inductive operation :=
| OpSimulate (frame_width upper_shape lower_shape left_wheel right_wheel : pyval)
| OpRace (cars : pyval)
| OpNewTrack.

(** The undecorated method behind an operation: one attempt. *)
Definition body (o : operation) : M retval :=
  match o with
  | OpSimulate a b c d e => Simulator.simulate_body a b c d e
  | OpRace cars => Simulator.race_body cars
  | OpNewTrack => Simulator.new_track_body
  end.

(** The module-level function a caller invokes. *)
Definition public (o : operation) : M retval :=
  match o with
  | OpSimulate a b c d e => simulate a b c d e
  | OpRace cars => race cars
  | OpNewTrack => new_track
  end.

(** What the module-level function hands to its caller when the method ends
    with [r]: exceptions pass through, and so do the values of [race] and
    [new_track]; [simulate] has no [return]. *)
Definition returned (o : operation) (r : result retval) : result retval :=
  match o, r with
  | OpSimulate _ _ _ _ _, Ok _ => Ok RNone
  | _, _ => r
  end.

Lemma public_decorated (o : operation) (s : state) :
  public o s =
  (returned o (fst (restart_on_broken_pipe (body o) s)),
   snd (restart_on_broken_pipe (body o) s)).
Proof.
  destruct o; simpl; unfold simulate, race, new_track, Simulator.simulate,
    Simulator.race, Simulator.new_track, bind, ret;
    match goal with |- context [restart_on_broken_pipe ?m s] =>
      destruct (restart_on_broken_pipe m s) as [[v|e] s1] end; reflexivity.
Qed.

Lemma popen_count_io_stable (k : nat) : io_stable (fun s => n_popen s = k).
Proof. intros s p e H _ _. exact H. Qed.

(** One attempt of an operation launches nothing. *)
Lemma body_launches_nothing (o : operation) (s : state) :
  n_popen (snd (body o s)) = n_popen s.
Proof.
  pose proof (popen_count_io_stable (n_popen s)) as HP.
  destruct o; simpl.
  - now apply keeps_simulate_body.
  - now apply keeps_race_body.
  - now apply keeps_new_track_body.
Qed.

(** ** What [_shutdown] and [_restart] do *)

(** Whether [communicate(timeout=t)] sees the process gone in time. *)
Definition gone_within (t : Z) (p : proc) : bool :=
  match p_status p with
  | Running => match sc_exit_delay (p_script p) with
               | Some d => (d <=? t)%Z
               | None => false
               end
  | Killed | Exited => true
  end.

(** The state [_shutdown] leaves when the worker is [p]. *)
Definition shut_down (p : proc) (s : state) : state :=
  if gone_within 10 p
  then log (EvCommunicate (p_pid p) 10 true)
           (set_worker (Some (with_closed true true Exited p)) s)
  else log (EvKill (p_pid p))
           (set_worker (Some (with_closed true (p_stdout_closed p) Killed p))
              (log (EvCommunicate (p_pid p) 10 false) s)).

Lemma shutdown_some (s : state) (p : proc) :
  _worker s = Some p -> _shutdown s = (Ok tt, shut_down p s).
Proof.
  intros Hw.
  cbv beta iota delta [_shutdown shut_down gone_within communicate kill worker
                       bind gets try_except modify raise ret].
  rewrite Hw; cbv beta iota zeta. rewrite Hw; cbv beta iota zeta.
  destruct (p_status p) eqn:Hst; simpl; try reflexivity.
  destruct (sc_exit_delay (p_script p)) as [d|]; simpl; [|reflexivity].
  destruct (d <=? 10)%Z; reflexivity.
Qed.

Lemma shutdown_none (s : state) :
  _worker s = None -> _shutdown s = (Raise (AssertionError ""), s).
Proof.
  intros Hw. unfold _shutdown, bind, gets. rewrite Hw. reflexivity.
Qed.

(** The state in which [_restart] draws its port. *)
Definition before_spawn (s : state) : state :=
  match _worker s with
  | Some p => shut_down p s
  | None => s
  end.

Definition drawn_port (s : state) : Z :=
  (1025 + env_entropy (env s) (n_rand s) mod (65535 - 1025 + 1))%Z.

Definition carsim_args (port : Z) : list string := ["./carsim"; format_d port].

Lemma restart_spec (s : state) :
  let s1 := before_spawn s in
  let v := drawn_port s1 in
  let s2 := set_port v (log (EvRandint 1025 65535 v) (tick_rand s1)) in
  _restart s =
  match env_popen (env s2) (n_popen s2) with
  | Some sc =>
      (Ok tt,
       set_worker (Some (spawn (n_popen s2) (carsim_args v) sc))
                  (log (EvSpawn (n_popen s2) (carsim_args v)) (tick_popen s2)))
  | None =>
      (Raise (SimulatorError
                "There was an unexpected error starting the simulator ☹"),
       log (EvSpawnFailed (carsim_args v)) (tick_popen s2))
  end.
Proof.
  cbv zeta. unfold _restart, before_spawn.
  unfold bind at 1. unfold gets at 1.
  destruct (_worker s) as [p|] eqn:Hw.
  - unfold bind at 1. rewrite (shutdown_some s p Hw).
    cbv beta iota delta [bind randint modify try_except Popen raise].
    simpl. destruct (env_popen _ _); reflexivity.
  - cbv beta iota delta [bind ret randint modify try_except Popen raise].
    simpl. destruct (env_popen _ _); reflexivity.
Qed.

Lemma restart_launches_once (s : state) :
  n_popen (snd (_restart s)) = S (n_popen (before_spawn s)).
Proof.
  rewrite restart_spec. cbv zeta.
  destruct (env_popen _ _); reflexivity.
Qed.

Lemma before_spawn_launches_nothing (s : state) :
  n_popen (before_spawn s) = n_popen s.
Proof.
  unfold before_spawn, shut_down.
  destruct (_worker s) as [p|]; [|reflexivity].
  destruct (gone_within 10 p); reflexivity.
Qed.

Lemma restart_ok_worker (s s2 : state) :
  _restart s = (Ok tt, s2) ->
  exists sc, _worker s2 = Some (spawn (n_popen s)
                                      (carsim_args (drawn_port (before_spawn s)))
                                      sc).
Proof.
  rewrite restart_spec. cbv zeta.
  destruct (env_popen _ _) as [sc|]; [|discriminate].
  intros H. injection H as <-. exists sc. simpl.
  now rewrite before_spawn_launches_nothing.
Qed.

Lemma restart_raises_SimulatorError (s s2 : state) (e : exn) :
  _restart s = (Raise e, s2) -> class_of e = CSimulatorError.
Proof.
  rewrite restart_spec. cbv zeta.
  destruct (env_popen _ _) as [sc|]; [discriminate|].
  intros H. injection H as <- _. reflexivity.
Qed.

Lemma decorated_first_attempt {A} (m : M A) (s s1 : state) (r : result A) :
  m s = (r, s1) -> r <> Raise BrokenPipeError ->
  restart_on_broken_pipe m s = (r, s1).
Proof.
  intros H Hr. unfold restart_on_broken_pipe, try_except. rewrite H.
  destruct r as [a|e]; [reflexivity|].
  destruct e; try reflexivity. now elim Hr.
Qed.

Lemma decorated_second_attempt {A} (m : M A) (s s1 : state) :
  m s = (Raise BrokenPipeError, s1) ->
  restart_on_broken_pipe m s = bind _restart (fun _ => m) s1.
Proof.
  intros H. unfold restart_on_broken_pipe, try_except. now rewrite H.
Qed.

Lemma public_one_attempt (o : operation) (s s1 : state) (r : result retval) :
  body o s = (r, s1) -> r <> Raise BrokenPipeError ->
  public o s = (returned o r, s1).
Proof.
  intros H Hr. rewrite public_decorated.
  now rewrite (decorated_first_attempt _ _ _ _ H Hr).
Qed.

Lemma public_two_attempts (o : operation) (s s1 s2 s3 : state)
      (r : result retval) :
  body o s = (Raise BrokenPipeError, s1) ->
  _restart s1 = (Ok tt, s2) ->
  body o s2 = (r, s3) ->
  public o s = (returned o r, s3).
Proof.
  intros H H0 H1.
  rewrite public_decorated, (decorated_second_attempt _ _ _ H).
  rewrite (bind_ok _ _ _ _ _ H0), H1. reflexivity.
Qed.

Lemma two_attempts_one_launch (o : operation) (s s1 s2 s3 : state)
      (r : result retval) :
  body o s = (Raise BrokenPipeError, s1) ->
  _restart s1 = (Ok tt, s2) ->
  body o s2 = (r, s3) ->
  n_popen s3 = S (n_popen s).
Proof.
  intros H H0 H1.
  pose proof (body_launches_nothing o s2) as H3. rewrite H1 in H3.
  pose proof (restart_launches_once s1) as H2. rewrite H0 in H2.
  pose proof (body_launches_nothing o s) as Hn. rewrite H in Hn.
  simpl in *. rewrite H3, H2, before_spawn_launches_nothing. now f_equal.
Qed.

(** C1.  Every public operation ([simulate], [race], [new_track]) makes one
    attempt; an attempt that succeeds or fails with anything but a broken
    pipe is the whole call, with no restart.  When the attempt ends in
    [BrokenPipeError], [_restart] runs once (one more launch, into a worker
    with a fresh process id) and the whole body runs exactly once more on
    that worker; whatever that second attempt gives, a second
    [BrokenPipeError] included, is what the caller gets.  When the restart
    itself fails, its [SimulatorError] reaches the caller and there is no
    second attempt. *)
Theorem restart_once_then_retry_once (o : operation) (s : state) :
  (forall r s1,
      body o s = (r, s1) -> r <> Raise BrokenPipeError ->
      public o s = (returned o r, s1) /\ n_popen s1 = n_popen s) /\
  (forall s1 s2 r s3,
      body o s = (Raise BrokenPipeError, s1) ->
      _restart s1 = (Ok tt, s2) ->
      body o s2 = (r, s3) ->
      public o s = (returned o r, s3) /\
      n_popen s3 = S (n_popen s) /\
      (exists p, _worker s2 = Some p /\ p_pid p = n_popen s /\
                 p_status p = Running /\ p_nio p = 0%nat) /\
      (r = Raise BrokenPipeError -> public o s = (Raise BrokenPipeError, s3))) /\
  (forall s1 e s2,
      body o s = (Raise BrokenPipeError, s1) ->
      _restart s1 = (Raise e, s2) ->
      public o s = (Raise e, s2) /\ class_of e = CSimulatorError /\
      n_popen s2 = S (n_popen s)).
Proof.
  repeat split.
  - now apply public_one_attempt.
  - pose proof (body_launches_nothing o s) as Hn. now rewrite H in Hn.
  - exact (public_two_attempts o s s1 s2 s3 r H H0 H1).
  - exact (two_attempts_one_launch o s s1 s2 s3 r H H0 H1).
  - destruct (restart_ok_worker _ _ H0) as [sc Hw].
    pose proof (body_launches_nothing o s) as Hn. rewrite H in Hn.
    simpl in Hn. rewrite Hn in Hw.
    eexists. split; [exact Hw|]. repeat split.
  - intros ->. now rewrite (public_two_attempts o s s1 s2 s3 _ H H0 H1); destruct o.
  - rewrite public_decorated, (decorated_second_attempt _ _ _ H).
    rewrite (bind_raise _ _ _ _ _ H0). now destruct o.
  - exact (restart_raises_SimulatorError _ _ _ H0).
  - pose proof (restart_launches_once s1) as H2. rewrite H0 in H2.
    pose proof (body_launches_nothing o s) as Hn. rewrite H in Hn.
    simpl in *. now rewrite H2, before_spawn_launches_nothing, Hn.
Qed.

(* ================================================================== *)
(** * Which workers are alive *)
(* ================================================================== *)

Definition without (pid : nat) (l : list nat) : list nat :=
  filter (fun q => negb (Nat.eqb q pid)) l.

(** The processes started and not yet seen to exit or killed, after the
    events of a trace (newest first). *)
Fixpoint alive (t : list event) : list nat :=
  match t with
  | [] => []
  | EvSpawn pid _ :: t' => pid :: without pid (alive t')
  | EvCommunicate pid _ true :: t' => without pid (alive t')
  | EvKill pid :: t' => without pid (alive t')
  | _ :: t' => alive t'
  end.

(** At no moment of the trace were two workers alive. *)
Fixpoint never_two_alive (t : list event) : bool :=
  match t with
  | [] => true
  | _ :: t' => (Nat.leb (List.length (alive t)) 1 && never_two_alive t')%bool
  end.

(** Every live process is the current worker, and there never were two. *)
Definition consistent (s : state) : Prop :=
  (forall pid, In pid (alive (trace s)) ->
               exists p, _worker s = Some p /\ p_pid p = pid) /\
  never_two_alive (trace s) = true.

Lemma without_length (pid : nat) (l : list nat) :
  (List.length (without pid l) <= List.length l)%nat.
Proof.
  induction l as [|q l IH]; simpl; [lia|].
  destruct (negb (Nat.eqb q pid)); simpl; lia.
Qed.

Lemma without_only (pid : nat) (l : list nat) :
  (forall q, In q l -> q = pid) -> without pid l = [].
Proof.
  induction l as [|q l IH]; intros H; simpl; [reflexivity|].
  rewrite (H q (or_introl eq_refl)), Nat.eqb_refl. simpl.
  apply IH. intros r Hr. apply H. now right.
Qed.

Lemma never_two_alive_length (t : list event) :
  never_two_alive t = true -> (List.length (alive t) <= 1)%nat.
Proof.
  destruct t as [|e t]; simpl; [lia|].
  intros H. apply andb_prop in H as [H _]. now apply Nat.leb_le in H.
Qed.

Lemma never_two_alive_cons (e : event) (t : list event) :
  never_two_alive t = true ->
  (List.length (alive (e :: t)) <= 1)%nat ->
  never_two_alive (e :: t) = true.
Proof.
  intros Ht He. change (never_two_alive (e :: t))
    with (Nat.leb (List.length (alive (e :: t))) 1 && never_two_alive t)%bool.
  rewrite Ht, andb_true_r. now apply Nat.leb_le.
Qed.

Lemma consistent_io_stable : io_stable consistent.
Proof.
  intros s p e [Hin Hnever] He Hp. split.
  - simpl. intros pid Hpid.
    assert (Ha : In pid (alive (trace s))) by (destruct e; tauto).
    destruct (Hin pid Ha) as (q & Hq & Hpq).
    exists p. split; [reflexivity|]. rewrite (Hp q Hq). exact Hpq.
  - simpl. apply never_two_alive_cons; [exact Hnever|].
    apply never_two_alive_length in Hnever.
    destruct e; try tauto; exact Hnever.
Qed.

Lemma alive_shut_down (s : state) (p : proc) :
  consistent s -> _worker s = Some p ->
  alive (trace (shut_down p s)) = [] /\ consistent (shut_down p s).
Proof.
  intros [Hin Hnever] Hw.
  assert (Hall : forall q, In q (alive (trace s)) -> q = p_pid p).
  { intros q Hq. destruct (Hin q Hq) as (p' & Hp' & <-). congruence. }
  pose proof (without_only _ _ Hall) as Hnil.
  unfold shut_down. destruct (gone_within 10 p); simpl.
  - rewrite Hnil. split; [reflexivity|]. split; simpl.
    + rewrite Hnil. intros pid [].
    + now rewrite Hnil, Hnever.
  - rewrite Hnil. split; [reflexivity|]. split; simpl.
    + rewrite Hnil. intros pid [].
    + rewrite Hnil, Hnever. simpl.
      apply never_two_alive_length in Hnever.
      apply Nat.leb_le in Hnever. now rewrite Hnever.
Qed.

Lemma alive_before_spawn (s : state) :
  consistent s ->
  alive (trace (before_spawn s)) = [] /\ consistent (before_spawn s).
Proof.
  intros Hc. unfold before_spawn.
  destruct (_worker s) as [p|] eqn:Hw.
  - now apply alive_shut_down.
  - split; [|exact Hc]. destruct Hc as [Hin _].
    destruct (alive (trace s)) as [|q l]; [reflexivity|].
    destruct (Hin q (or_introl eq_refl)) as (p & Hp & _). congruence.
Qed.

Lemma keeps_consistent_shutdown : keeps consistent _shutdown.
Proof.
  intros s Hc. destruct (_worker s) as [p|] eqn:Hw.
  - rewrite (shutdown_some s p Hw). now apply alive_shut_down.
  - now rewrite (shutdown_none s Hw).
Qed.

Lemma keeps_consistent_restart : keeps consistent _restart.
Proof.
  intros s Hc. rewrite restart_spec. cbv zeta.
  destruct (alive_before_spawn s Hc) as [Hnil [Hin Hnever]].
  destruct (env_popen _ _) as [sc|]; simpl; split; simpl; rewrite ?Hnil;
    simpl; try (now rewrite Hnever).
  - intros pid [<-|[]]. eexists. split; reflexivity.
  - intros pid [].
Qed.

Lemma consistent_set_worker_None (s : state) :
  alive (trace s) = [] -> never_two_alive (trace s) = true ->
  consistent (set_worker None s).
Proof.
  intros Hnil Hnever. split; simpl; [|exact Hnever].
  rewrite Hnil. intros pid [].
Qed.

(** ** The states a program can reach *)

Inductive call :=
| CallPublic (o : operation)      (** [simulate], [race], [new_track] *)
| CallMethod (o : operation)      (** the same, as methods *)
| CallRestart                     (** [_restart()] *)
| CallShutdown                    (** [_shutdown()] *)
| CallExit.                       (** the exit hooks *)

Definition after (c : call) (s : state) : state :=
  match c with
  | CallPublic o => snd (public o s)
  | CallMethod o => snd (restart_on_broken_pipe (body o) s)
  | CallRestart => snd (_restart s)
  | CallShutdown => snd (_shutdown s)
  | CallExit => snd (interpreter_exit s)
  end.

(** A reachable state: the module is imported once, which constructs the
    simulator, and then the caller does what it likes. *)
Inductive reachable : state -> Prop :=
| reach_import (e : environment) : reachable (snd (import_module e))
| reach_call (c : call) (s : state) : reachable s -> reachable (after c s).

Lemma keeps_consistent_body (o : operation) : keeps consistent (body o).
Proof.
  pose proof consistent_io_stable as HP.
  destruct o; simpl.
  - now apply keeps_simulate_body.
  - now apply keeps_race_body.
  - now apply keeps_new_track_body.
Qed.

Lemma keeps_consistent_method (o : operation) :
  keeps consistent (restart_on_broken_pipe (body o)).
Proof.
  unfold restart_on_broken_pipe.
  apply keeps_try_except; [apply keeps_consistent_body|].
  apply keeps_bind; [apply keeps_consistent_restart|].
  intros _. apply keeps_consistent_body.
Qed.

Lemma keeps_consistent_run_hooks (n : nat) : keeps consistent (run_hooks n).
Proof.
  induction n as [|n IH]; intros s Hc; [exact Hc|].
  simpl. pose proof (keeps_consistent_shutdown s Hc) as H1.
  destruct (_shutdown s) as [r s1]. simpl in H1.
  pose proof (IH s1 H1) as H2.
  destruct (run_hooks n s1) as [rs s2]. exact H2.
Qed.

Lemma consistent_import (e : environment) : consistent (snd (import_module e)).
Proof.
  unfold import_module, Simulator.__init__, _start_worker.
  assert (H0 : consistent (set_worker None (initial e))).
  { apply consistent_set_worker_None; reflexivity. }
  unfold bind at 1. unfold modify at 1.
  pose proof (keeps_consistent_restart _ H0) as H1.
  unfold bind. destruct (_restart _) as [[[]|x] s1]; simpl in *; [|exact H1].
  destruct H1 as [Hin Hnever]. split; simpl; [exact Hin|].
  rewrite Hnever, andb_true_r.
  apply Nat.leb_le. now apply never_two_alive_length.
Qed.

Lemma reachable_consistent (s : state) : reachable s -> consistent s.
Proof.
  induction 1 as [e|c s _ IH].
  - apply consistent_import.
  - destruct c; simpl.
    + rewrite public_decorated. simpl. now apply keeps_consistent_method.
    + now apply keeps_consistent_method.
    + now apply keeps_consistent_restart.
    + now apply keeps_consistent_shutdown.
    + unfold interpreter_exit, bind, gets.
      now apply keeps_consistent_run_hooks.
Qed.

Lemma drawn_port_range (s : state) :
  (1025 <= drawn_port s <= 65535)%Z.
Proof.
  unfold drawn_port.
  pose proof (Z.mod_pos_bound (env_entropy (env s) (n_rand s))
                              (65535 - 1025 + 1)) as H.
  lia.
Qed.

(** What [_shutdown] appends to the trace for the worker [p]: a
    [communicate] with a timeout of 10, and a [kill] only when that timed
    out. *)
Definition shutdown_events (p : proc) : list event :=
  if gone_within 10 p then [EvCommunicate (p_pid p) 10 true]
  else [EvKill (p_pid p); EvCommunicate (p_pid p) 10 false].

Lemma trace_shut_down (p : proc) (s : state) :
  trace (shut_down p s) = (shutdown_events p ++ trace s)%list.
Proof.
  unfold shut_down, shutdown_events. destruct (gone_within 10 p); reflexivity.
Qed.

(** C6.  In any reachable state, a [_restart] that returns has first shut
    the held worker down ([communicate] with timeout 10, [kill] exactly when
    that timed out), so that no worker was alive when the port was drawn
    and the replacement spawned; the port lies in [1025, 65535]; afterwards
    the only live worker is the new one, which [_worker] holds, and at no
    point of the history were two workers alive. *)
Theorem restart_replaces_worker (s s' : state) :
  reachable s ->
  _restart s = (Ok tt, s') ->
  exists (v : Z) (sc : script),
    let old := match _worker s with
               | Some p => shutdown_events p
               | None => []
               end in
    let fresh := spawn (n_popen s) (carsim_args v) sc in
    trace s' = (EvSpawn (n_popen s) (carsim_args v)
                  :: EvRandint 1025 65535 v :: old ++ trace s)%list /\
    alive (old ++ trace s)%list = [] /\
    (1025 <= v <= 65535)%Z /\
    port s' = Some v /\
    _worker s' = Some fresh /\
    p_status fresh = Running /\
    alive (trace s') = [p_pid fresh] /\
    never_two_alive (trace s') = true.
Proof.
  intros Hr H. pose proof (reachable_consistent s Hr) as Hc.
  pose proof (keeps_consistent_restart s Hc) as Hc'. rewrite H in Hc'.
  destruct (alive_before_spawn s Hc) as [Hnil _].
  assert (Ht : trace (before_spawn s) =
               ((match _worker s with
                 | Some p => shutdown_events p
                 | None => []
                 end) ++ trace s)%list).
  { unfold before_spawn. destruct (_worker s) as [p|]; [|reflexivity].
    apply trace_shut_down. }
  revert H. rewrite restart_spec. cbv zeta.
  destruct (env_popen _ _) as [sc|]; [|discriminate].
  intros H. injection H as <-.
  exists (drawn_port (before_spawn s)), sc. cbv zeta. simpl.
  rewrite before_spawn_launches_nothing, <- Ht, Hnil.
  repeat split; try apply drawn_port_range.
  destruct Hc' as [_ Hnever]. simpl in Hnever.
  rewrite before_spawn_launches_nothing, Hnil in Hnever. exact Hnever.
Qed.

(** ** Repeated shutdown *)

Lemma shutdown_keeps_worker (s : state) :
  _worker s <> None ->
  fst (_shutdown s) = Ok tt /\ _worker (snd (_shutdown s)) <> None.
Proof.
  intros Hw. destruct (_worker s) as [p|] eqn:Hp; [|now elim Hw].
  rewrite (shutdown_some s p Hp). split; [reflexivity|].
  unfold shut_down. destruct (gone_within 10 p); simpl; discriminate.
Qed.

Lemma run_hooks_all_ok (n : nat) (s : state) :
  _worker s <> None -> fst (run_hooks n s) = Ok (repeat (Ok tt) n).
Proof.
  revert s. induction n as [|n IH]; intros s Hw; [reflexivity|].
  simpl. destruct (shutdown_keeps_worker s Hw) as [H1 H2].
  destruct (_shutdown s) as [r s1]. simpl in *. subst r.
  specialize (IH s1 H2). destruct (run_hooks n s1) as [rs s2].
  simpl in IH. now subst rs.
Qed.

(** C9.  Once the simulator holds a worker, any number of [_shutdown] calls
    in a row return without raising: the first terminates the worker, the
    later ones find it gone.  In particular an explicit [_shutdown] followed
    by the exit hooks raises nothing. *)
Theorem shutdown_repeatable (s : state) :
  _worker s <> None ->
  (forall n, fst (run_hooks n s) = Ok (repeat (Ok tt) n)) /\
  fst (bind _shutdown (fun _ => interpreter_exit) s)
  = Ok (repeat (Ok tt) (hooks s)).
Proof.
  intros Hw. split.
  - intros n. now apply run_hooks_all_ok.
  - destruct (shutdown_keeps_worker s Hw) as [H1 H2].
    unfold bind at 1. pose proof (shutdown_some s) as Hs.
    destruct (_worker s) as [p|] eqn:Hp; [|now elim Hw].
    rewrite (Hs p eq_refl) in *. simpl in H2.
    unfold interpreter_exit, bind, gets.
    replace (hooks (shut_down p s)) with (hooks s)
      by (unfold shut_down; destruct (gone_within 10 p); reflexivity).
    now apply run_hooks_all_ok.
Qed.

(* ================================================================== *)
(** * The trace only grows *)
(* ================================================================== *)

(** [extends t0 s]: the trace of [s] is [t0] with newer events in front. *)
Definition extends (t0 : list event) (s : state) : Prop :=
  exists newer, trace s = (newer ++ t0)%list.

Lemma extends_refl (s : state) : extends (trace s) s.
Proof. now exists []. Qed.

Lemma extends_log (t0 : list event) (e : event) (s : state) :
  extends t0 s -> extends t0 (log e s).
Proof. intros [l H]. exists (e :: l). simpl. now rewrite H. Qed.

Lemma extends_io_stable (t0 : list event) : io_stable (extends t0).
Proof.
  intros s p e H _ _. apply extends_log. exact H.
Qed.

Lemma keeps_extends_restart (t0 : list event) : keeps (extends t0) _restart.
Proof.
  intros s [l H]. rewrite restart_spec. cbv zeta.
  assert (Hb : extends t0 (before_spawn s)).
  { unfold before_spawn. destruct (_worker s) as [p|].
    - exists (shutdown_events p ++ l)%list.
      now rewrite trace_shut_down, H, app_assoc.
    - now exists l. }
  destruct Hb as [l' H'].
  destruct (env_popen _ _); unfold extends; simpl; rewrite H'.
  - now exists (EvSpawn (n_popen (before_spawn s))
                        (carsim_args (drawn_port (before_spawn s)))
                  :: EvRandint 1025 65535 (drawn_port (before_spawn s)) :: l').
  - now exists (EvSpawnFailed (carsim_args (drawn_port (before_spawn s)))
                  :: EvRandint 1025 65535 (drawn_port (before_spawn s)) :: l').
Qed.

Lemma keeps_extends_body (t0 : list event) (o : operation) :
  keeps (extends t0) (body o).
Proof.
  pose proof (extends_io_stable t0) as HP.
  destruct o; simpl.
  - now apply keeps_simulate_body.
  - now apply keeps_race_body.
  - now apply keeps_new_track_body.
Qed.

Lemma post_bind {A B} (P : state -> Prop) (m : M A) (k : A -> M B) s :
  P (snd (m s)) -> (forall a, keeps P (k a)) -> P (snd (bind m k s)).
Proof.
  intros Hm Hk. unfold bind. destruct (m s) as [[a|e] s1]; simpl in *.
  - now apply Hk.
  - exact Hm.
Qed.

Lemma post_try_except {A} (P : state -> Prop) (m : M A) handled (h : M A) s :
  P (snd (m s)) -> keeps P h -> P (snd (try_except m handled h s)).
Proof.
  intros Hm Hh. unfold try_except. destruct (m s) as [[a|e] s1]; simpl in *.
  - exact Hm.
  - destruct (handled e); [now apply Hh | exact Hm].
Qed.

(* ================================================================== *)
(** * Validation of a race *)
(* ================================================================== *)

Lemma items_has_len (v : pyval) (l : list pyval) :
  items v = Some l -> has_len v = true /\ py_len v = Ok (List.length l).
Proof.
  intros H. unfold py_len. rewrite H. split; [|reflexivity].
  destruct v; simpl in *; congruence.
Qed.

Lemma check_cars_count (cars : pyval) (l : list pyval) :
  items cars = Some l ->
  _check_cars cars =
  if Nat.eqb (List.length l) 0
  then Raise (AssertionError "cars should not be an empty list")
  else if Nat.leb (List.length l) 100 then check_each_car 0 l
  else Raise (AssertionError
    "you have provided too many cars (use a number less or equal to 100)").
Proof.
  intros H. destruct (items_has_len _ _ H) as [Hl Hn].
  unfold _check_cars. rewrite Hl, Hn, H. simpl.
  destruct (List.length l) as [|n]; [reflexivity|]. simpl.
  destruct (Nat.leb n 99); reflexivity.
Qed.

Lemma race_rejected (cars : pyval) (s : state) (msg : string) :
  _check_cars cars = Raise (AssertionError msg) ->
  race cars s = (Raise (AssertionError msg), s).
Proof.
  intros H. unfold race, Simulator.race.
  apply decorated_first_attempt; [|discriminate].
  unfold Simulator.race_body, bind, lift. now rewrite H.
Qed.

(** C7.  A race of 0 cars and a race of 101 cars end in an assertion
    failure and leave the state, the trace of I/O included, exactly as it
    was.  A race of exactly 100 cars, each of which passes the per-car
    checks, passes [_check_cars], and the call goes on to the worker: the
    first thing it does is write [RACE 100] to the worker's stdin. *)
Theorem race_validation_boundary (cars : pyval) (l : list pyval) (s : state) :
  items cars = Some l ->
  (List.length l = 0%nat ->
   exists msg, race cars s = (Raise (AssertionError msg), s)) /\
  (List.length l = 101%nat ->
   exists msg, race cars s = (Raise (AssertionError msg), s)) /\
  (List.length l = 100%nat ->
   check_each_car 0 l = Ok tt ->
   forall p, _worker s = Some p -> p_stdin_closed p = false ->
   _check_cars cars = Ok tt /\
   exists ok, extends (EvWrite (p_pid p) "RACE 100" ok :: trace s)
                      (snd (race cars s))).
Proof.
  intros Hi. pose proof (check_cars_count cars l Hi) as Hc.
  repeat split.
  - intros Hn. rewrite Hn in Hc. eexists. apply race_rejected. exact Hc.
  - intros Hn. rewrite Hn in Hc. eexists. apply race_rejected. exact Hc.
  - rewrite H in Hc. simpl in Hc. now rewrite Hc, H0.
  - rewrite H in Hc. simpl in Hc. rewrite H0 in Hc.
    destruct (items_has_len _ _ Hi) as [_ Hn]. rewrite H in Hn.
    exists (negb (sc_broken (p_script p) (p_nio p))).
    unfold race, Simulator.race, restart_on_broken_pipe.
    set (t1 := EvWrite _ _ _ :: trace s).
    apply post_try_except.
    2:{ apply keeps_bind; [apply keeps_extends_restart|].
        intros _. apply (keeps_extends_body t1 (OpRace cars)). }
    unfold Simulator.race_body. unfold bind at 1. unfold lift at 1.
    rewrite Hc. apply post_bind.
    2:{ intros _. pose proof (extends_io_stable t1) as HP.
        keeps_auto. now apply keeps_recv_scores. }
    unfold _send_race. unfold bind at 1. unfold worker at 1. rewrite H1.
    unfold bind at 1. unfold lift at 1. rewrite Hn.
    apply post_bind.
    2:{ intros _. pose proof (extends_io_stable t1) as HP.
        keeps_auto; auto using keeps_write_cars, keeps_stdin_flush. }
    unfold stdin_write, bind, worker. rewrite H1, H2.
    destruct (sc_broken (p_script p) (p_nio p)); simpl; now exists [].
Qed.

(* ================================================================== *)
(** * An attempt is a request followed by the reading of the reply *)
(* ================================================================== *)

Definition newline : string := String "010" EmptyString.

(** Everything an attempt does before it reads the first reply line:
    validation, encoding and the writes. *)
Definition request (o : operation) : M unit :=
  match o with
  | OpSimulate frame_width upper_shape lower_shape left_wheel right_wheel =>
      lift (_check_num "frame_width" frame_width) ;;
      lift (_check_nums "upper_shape" 5 upper_shape) ;;
      lift (_check_nums "lower_shape" 5 lower_shape) ;;
      lift (_check_nums "left_wheel" 2 left_wheel) ;;
      lift (_check_nums "right_wheel" 2 right_wheel) ;;
      spec <- lift (_car_spec frame_width upper_shape lower_shape left_wheel
                              right_wheel) ;;
      _send ("SIM" ++ spec)
  | OpRace cars =>
      lift (_check_cars cars) ;;
      _send_race cars
  | OpNewTrack =>
      stdin_write ("TRACK" ++ newline) ;;
      stdin_flush
  end.

(** What an attempt does with the first reply line once [_recv] has
    returned it. *)
Definition decode (o : operation) (head : string) : M retval :=
  match o with
  | OpSimulate _ _ _ _ _ =>
      state_num <- lift (py_int head) ;;
      _recv_states state_num
  | OpRace cars =>
      n <- lift (py_len cars) ;;
      values <- lift (parse_tokens (split " " head)) ;;
      match n with
      | O => raise IndexError
      | S n' =>
          row <- lift (assign_row 2 values) ;;
          rest <- recv_rows 2 n' ;;
          ret (RMatrix (row :: rest))
      end
  | OpNewTrack =>
      if negb (head =? "DONE")%string
      then raise (SimulatorError
                    "the simulator was not able to generate a new track ☹")
      else ret RNone
  end.

Lemma lift_bind_ok {A B} (r : result A) (k : A -> M B) (s s1 : state) (b : B) :
  bind (lift r) k s = (Ok b, s1) -> exists a, r = Ok a /\ k a s = (Ok b, s1).
Proof.
  unfold bind, lift. destruct r as [a|e]; [|discriminate].
  intros H. now exists a.
Qed.

Lemma send_race_len (cars : pyval) (s s1 : state) :
  _send_race cars s = (Ok tt, s1) -> exists n, py_len cars = Ok n.
Proof.
  unfold _send_race. unfold bind at 1.
  destruct (worker s) as [[p|e] s0]; [|discriminate].
  intros H. apply lift_bind_ok in H as (n & Hn & _). now exists n.
Qed.

Lemma body_request_reply (o : operation) (s s1 : state) :
  request o s = (Ok tt, s1) ->
  body o s = bind _recv (decode o) s1.
Proof.
  destruct o as [a b c d e|cars|]; unfold request, body, decode.
  - cbv beta iota delta [Simulator.simulate_body bind lift].
    repeat match goal with
           | |- match ?r with Ok _ => _ | Raise _ => _ end = _ -> _ =>
               destruct r; [|intros H; discriminate H]
           end.
    match goal with
    | |- ?m = _ -> _ => destruct m as [[[]|x] s']; [|intros H; discriminate H]
    end.
    intros H. injection H as ->. reflexivity.
  - intros H. apply lift_bind_ok in H as ([] & Hc & H).
    destruct (send_race_len _ _ _ H) as [n Hn].
    unfold Simulator.race_body. rewrite Hc.
    change (bind (lift (Ok tt)) ?k s) with (k tt s). cbv beta.
    rewrite (bind_ok _ _ _ _ _ H), Hn. unfold _recv_scores.
    cbv beta iota delta [bind lift].
    destruct (_recv s1) as [[head|x] s2]; reflexivity.
  - unfold Simulator.new_track_body, newline. intros H.
    unfold bind at 1. unfold bind at 1 in H.
    destruct (stdin_write _ s) as [[[]|x] s']; [|discriminate H].
    unfold bind at 1. rewrite H. reflexivity.
Qed.

Lemma recv_error_line (s s1 : state) (raw : string) :
  stdout_readline s = (Ok raw, s1) ->
  startswith "ERR " (rstrip raw) = true ->
  _recv s = (Raise (SimulationError (drop 4 (rstrip raw))), s1).
Proof.
  intros H He. unfold _recv, bind. rewrite H, He. reflexivity.
Qed.

Lemma recv_plain_line (s s1 : state) (raw : string) :
  stdout_readline s = (Ok raw, s1) ->
  startswith "ERR " (rstrip raw) = false ->
  _recv s = (Ok (rstrip raw), s1).
Proof.
  intros H He. unfold _recv, bind. rewrite H, He. reflexivity.
Qed.

Lemma request_launches_nothing (o : operation) (s s1 : state) (r : result unit) :
  request o s = (r, s1) -> n_popen s1 = n_popen s.
Proof.
  intros H. pose proof (popen_count_io_stable (n_popen s)) as HP.
  assert (K : keeps (fun s' => n_popen s' = n_popen s) (request o)).
  { destruct o; simpl; keeps_auto;
      auto using keeps_send, keeps_send_race, keeps_stdin_write,
                 keeps_stdin_flush. }
  specialize (K s eq_refl). now rewrite H in K.
Qed.

Lemma readline_launches_nothing (s s1 : state) (r : result string) :
  stdout_readline s = (r, s1) -> n_popen s1 = n_popen s.
Proof.
  intros H.
  pose proof (keeps_stdout_readline _ (popen_count_io_stable (n_popen s)) s
                eq_refl) as K.
  now rewrite H in K.
Qed.

Lemma body_error_line (o : operation) (s s1 s2 : state) (raw : string) :
  request o s = (Ok tt, s1) ->
  stdout_readline s1 = (Ok raw, s2) ->
  startswith "ERR " (rstrip raw) = true ->
  body o s = (Raise (SimulationError (drop 4 (rstrip raw))), s2).
Proof.
  intros Hq Hr He. rewrite (body_request_reply o s s1 Hq).
  apply bind_raise. now apply recv_error_line.
Qed.

(** C2, as the code has it.  The first reply line of an operation, the one
    [_recv] reads, is checked after its trailing whitespace is stripped: when
    it then starts with [ERR ], the call raises [SimulationError] with the
    rest of the stripped line as its message, in the state right after that
    one line was read, so nothing is parsed as a number, and no worker is
    launched, so nothing is retried.  This holds for the first attempt and
    for the attempt made after a restart. *)
Theorem error_line_on_first_reply (o : operation) :
  (forall s s1 s2 raw,
      request o s = (Ok tt, s1) ->
      stdout_readline s1 = (Ok raw, s2) ->
      startswith "ERR " (rstrip raw) = true ->
      public o s = (Raise (SimulationError (drop 4 (rstrip raw))), s2) /\
      n_popen s2 = n_popen s) /\
  (forall s s0 s' s1 s2 raw,
      body o s = (Raise BrokenPipeError, s0) ->
      _restart s0 = (Ok tt, s') ->
      request o s' = (Ok tt, s1) ->
      stdout_readline s1 = (Ok raw, s2) ->
      startswith "ERR " (rstrip raw) = true ->
      public o s = (Raise (SimulationError (drop 4 (rstrip raw))), s2) /\
      n_popen s2 = S (n_popen s)).
Proof.
  split.
  - intros s s1 s2 raw Hq Hr He.
    pose proof (body_error_line o s s1 s2 raw Hq Hr He) as Hb.
    split; [now rewrite (public_one_attempt o s s2 _ Hb); destruct o|].
    rewrite (readline_launches_nothing _ _ _ Hr).
    exact (request_launches_nothing _ _ _ _ Hq).
  - intros s s0 s' s1 s2 raw Hb Hrs Hq Hr He.
    pose proof (body_error_line o s' s1 s2 raw Hq Hr He) as Hb'.
    split.
    + now rewrite (public_two_attempts o s s0 s' s2 _ Hb Hrs Hb'); destruct o.
    + exact (two_attempts_one_launch o s s0 s' s2 _ Hb Hrs Hb').
Qed.

Lemma body_unexpected_track_reply (s s1 s2 : state) (raw : string) :
  request OpNewTrack s = (Ok tt, s1) ->
  stdout_readline s1 = (Ok raw, s2) ->
  rstrip raw <> "DONE" ->
  startswith "ERR " (rstrip raw) = false ->
  body OpNewTrack s =
  (Raise (SimulatorError
            "the simulator was not able to generate a new track ☹"), s2).
Proof.
  intros Hq Hr Hd He. rewrite (body_request_reply _ s s1 Hq).
  rewrite (bind_ok _ _ _ _ _ (recv_plain_line _ _ _ Hr He)).
  simpl. apply String.eqb_neq in Hd. now rewrite Hd.
Qed.

(** C10.  A worker that cannot be launched makes [_restart] raise
    [SimulatorError], at construction or in a restart; a [new_track] whose
    reply line, once stripped, is neither [DONE] nor starts with [ERR ]
    raises [SimulatorError] too, on the first attempt and on the retried
    one.  The two failures have the same class. *)
Theorem launch_and_track_failure_same_class :
  (forall s e s', _restart s = (Raise e, s') -> class_of e = CSimulatorError) /\
  (forall env e s', import_module env = (Raise e, s') ->
                    class_of e = CSimulatorError) /\
  (forall s s1 s2 raw,
      request OpNewTrack s = (Ok tt, s1) ->
      stdout_readline s1 = (Ok raw, s2) ->
      rstrip raw <> "DONE" ->
      startswith "ERR " (rstrip raw) = false ->
      exists e, new_track s = (Raise e, s2) /\ class_of e = CSimulatorError) /\
  (forall s s0 s' s1 s2 raw,
      body OpNewTrack s = (Raise BrokenPipeError, s0) ->
      _restart s0 = (Ok tt, s') ->
      request OpNewTrack s' = (Ok tt, s1) ->
      stdout_readline s1 = (Ok raw, s2) ->
      rstrip raw <> "DONE" ->
      startswith "ERR " (rstrip raw) = false ->
      exists e, new_track s = (Raise e, s2) /\ class_of e = CSimulatorError).
Proof.
  repeat split.
  - intros s e s'. apply restart_raises_SimulatorError.
  - intros env0 e s'. unfold import_module, Simulator.__init__, _start_worker.
    unfold bind at 1. unfold modify at 1. unfold bind at 1.
    destruct (_restart _) as [[[]|x] s1] eqn:Hr.
    + unfold bind, atexit_register, modify. discriminate.
    + intros H. injection H as <- _.
      exact (restart_raises_SimulatorError _ _ _ Hr).
  - intros s s1 s2 raw Hq Hr Hd He.
    pose proof (body_unexpected_track_reply s s1 s2 raw Hq Hr Hd He) as Hb.
    exists (SimulatorError
              "the simulator was not able to generate a new track ☹").
    split; [|reflexivity].
    now apply (public_one_attempt OpNewTrack s s2 _ Hb).
  - intros s s0 s' s1 s2 raw Hb Hrs Hq Hr Hd He.
    pose proof (body_unexpected_track_reply s' s1 s2 raw Hq Hr Hd He) as Hb'.
    exists (SimulatorError
              "the simulator was not able to generate a new track ☹").
    split; [|reflexivity].
    exact (public_two_attempts OpNewTrack s s0 s' s2 _ Hb Hrs Hb').
Qed.

(* ================================================================== *)
(** * Rendered numbers *)
(* ================================================================== *)

Section StringFacts.

Lemma append_empty_r (s : string) : s ++ "" = s.
Proof. induction s as [|c s IH]; simpl; [reflexivity | now rewrite IH]. Qed.

Lemma append_assoc (a b c : string) : (a ++ b) ++ c = a ++ (b ++ c).
Proof. induction a as [|x a IH]; simpl; [reflexivity | now rewrite IH]. Qed.

Lemma append_length (a b : string) :
  String.length (a ++ b) = (String.length a + String.length b)%nat.
Proof. induction a as [|x a IH]; simpl; [reflexivity | now rewrite IH]. Qed.

Lemma chars_append (a b : string) :
  list_ascii_of_string (a ++ b)
  = (list_ascii_of_string a ++ list_ascii_of_string b)%list.
Proof. induction a as [|x a IH]; simpl; [reflexivity | now rewrite IH]. Qed.

Lemma all_digits_append (a b : string) :
  all_digits (a ++ b) = (all_digits a && all_digits b)%bool.
Proof. unfold all_digits. now rewrite chars_append, forallb_app. Qed.

Lemma no_space_append (a b : string) :
  no_space (a ++ b) = (no_space a && no_space b)%bool.
Proof. unfold no_space. now rewrite chars_append, forallb_app. Qed.

Lemma has_exponent_append (a b : string) :
  has_exponent (a ++ b) = (has_exponent a || has_exponent b)%bool.
Proof. unfold has_exponent. now rewrite chars_append, existsb_app. Qed.

(** A digit is neither whitespace, nor a sign, a point, an underscore or an
    exponent marker. *)
Lemma digit_facts (c : ascii) :
  is_digit c = true ->
  is_space c = false /\
  Ascii.eqb c "-" = false /\ Ascii.eqb c "+" = false /\
  Ascii.eqb c "." = false /\ Ascii.eqb c "_" = false /\
  Ascii.eqb c "e" = false /\ Ascii.eqb c "E" = false /\
  Ascii.eqb c " " = false /\
  Ascii.eqb (lower c) "i" = false /\ Ascii.eqb (lower c) "n" = false /\
  (0 <= digit_val c <= 9)%Z.
Proof.
  destruct c as [[] [] [] [] [] [] [] []]; cbv; intros H;
    try discriminate H; repeat split; discriminate.
Qed.

Lemma digit_char_is_digit (d : Z) :
  (0 <= d < 10)%Z ->
  is_digit (digit_char d) = true /\ digit_val (digit_char d) = d.
Proof.
  intros H.
  assert (d = 0 \/ d = 1 \/ d = 2 \/ d = 3 \/ d = 4 \/ d = 5 \/ d = 6 \/
          d = 7 \/ d = 8 \/ d = 9)%Z as Hd by lia.
  repeat (destruct Hd as [-> | Hd]; [now split|]). subst d. now split.
Qed.

Lemma all_digits_no_space (s : string) :
  all_digits s = true -> no_space s = true.
Proof.
  unfold all_digits, no_space.
  induction (list_ascii_of_string s) as [|c l IH]; simpl; [reflexivity|].
  intros H. apply andb_prop in H as [Hc Hl].
  destruct (digit_facts c Hc) as [-> _]. now rewrite IH.
Qed.

Lemma all_digits_no_exponent (s : string) :
  all_digits s = true -> has_exponent s = false.
Proof.
  unfold all_digits, has_exponent.
  induction (list_ascii_of_string s) as [|c l IH]; simpl; [reflexivity|].
  intros H. apply andb_prop in H as [Hc Hl].
  destruct (digit_facts c Hc) as (_ & _ & _ & _ & _ & -> & -> & _).
  now rewrite IH.
Qed.

(** ** Rendering digits *)

Lemma fixed_digits_acc (k : nat) (n : Z) (acc : string) :
  fixed_digits k n acc = fixed_digits k n "" ++ acc.
Proof.
  revert n acc. induction k as [|k IH]; intros n acc; simpl; [reflexivity|].
  rewrite IH, (IH _ (String _ "")), append_assoc. reflexivity.
Qed.

Lemma digits_fuel_acc (f : nat) (n : Z) (acc : string) :
  digits_fuel f n acc = digits_fuel f n "" ++ acc.
Proof.
  revert n acc. induction f as [|f IH]; intros n acc; simpl; [reflexivity|].
  destruct (n <? 10)%Z; [reflexivity|].
  rewrite IH, (IH _ (String _ "")), append_assoc. reflexivity.
Qed.

Lemma fixed_digits_all_digits (k : nat) (n : Z) :
  all_digits (fixed_digits k n "") = true.
Proof.
  revert n. induction k as [|k IH]; intros n; simpl; [reflexivity|].
  rewrite fixed_digits_acc, all_digits_append, IH. simpl.
  unfold all_digits. simpl.
  destruct (digit_char_is_digit (n mod 10)) as [-> _]; [|reflexivity].
  apply Z.mod_pos_bound. lia.
Qed.

Lemma fixed_digits_length (k : nat) (n : Z) :
  String.length (fixed_digits k n "") = k.
Proof.
  revert n. induction k as [|k IH]; intros n; simpl; [reflexivity|].
  rewrite fixed_digits_acc, append_length, IH. simpl. lia.
Qed.

Lemma digits_fuel_all_digits (f : nat) (n : Z) :
  all_digits (digits_fuel f n "") = true.
Proof.
  revert n. induction f as [|f IH]; intros n; simpl; [reflexivity|].
  assert (Hd : all_digits (String (digit_char (n mod 10)) "") = true).
  { unfold all_digits. simpl.
    destruct (digit_char_is_digit (n mod 10)) as [-> _]; [|reflexivity].
    apply Z.mod_pos_bound. lia. }
  destruct (n <? 10)%Z; [exact Hd|].
  now rewrite digits_fuel_acc, all_digits_append, IH, Hd.
Qed.

Lemma digits_fuel_nonempty (f : nat) (n : Z) :
  exists c r, digits_fuel (S f) n "" = String c r.
Proof.
  simpl. destruct (n <? 10)%Z; [now eexists; eexists|].
  rewrite digits_fuel_acc.
  destruct (digits_fuel f (n / 10) "") as [|c r]; simpl;
    now eexists; eexists.
Qed.

Lemma str_of_nonneg_all_digits (n : Z) : all_digits (str_of_nonneg n) = true.
Proof. apply digits_fuel_all_digits. Qed.

Lemma str_of_nonneg_nonempty (n : Z) :
  exists c r, str_of_nonneg n = String c r /\ is_digit c = true.
Proof.
  destruct (digits_fuel_nonempty (Z.to_nat (Z.log2 n)) n) as (c & r & H).
  exists c, r. split; [exact H|].
  pose proof (str_of_nonneg_all_digits n) as Ha.
  unfold str_of_nonneg in Ha. rewrite H in Ha.
  unfold all_digits in Ha. simpl in Ha. now apply andb_prop in Ha as [Ha _].
Qed.

(** The number a string of digits denotes, read from the left. *)
Fixpoint digits_value (s : string) (acc : Z) : Z :=
  match s with
  | EmptyString => acc
  | String c s' => digits_value s' (10 * acc + digit_val c)
  end.

Lemma digits_value_append (a b : string) (acc : Z) :
  digits_value (a ++ b) acc = digits_value b (digits_value a acc).
Proof.
  revert acc. induction a as [|c a IH]; intros acc; simpl; [reflexivity|].
  apply IH.
Qed.

Lemma digits_value_acc (s : string) (acc : Z) :
  digits_value s acc
  = (acc * 10 ^ Z.of_nat (String.length s) + digits_value s 0)%Z.
Proof.
  revert acc. induction s as [|c s IH]; intros acc.
  - simpl. lia.
  - cbn [digits_value String.length]. rewrite IH, (IH (10 * 0 + _)%Z).
    rewrite Nat2Z.inj_succ, Z.pow_succ_r by lia. ring.
Qed.

Lemma fixed_digits_value (k : nat) (n : Z) :
  (0 <= n)%Z ->
  digits_value (fixed_digits k n "") 0 = (n mod 10 ^ Z.of_nat k)%Z.
Proof.
  revert n. induction k as [|k IH]; intros n Hn.
  - simpl. now rewrite Z.mod_1_r.
  - cbn [fixed_digits]. rewrite fixed_digits_acc, digits_value_append.
    rewrite IH by (apply Z.div_pos; lia). cbn [digits_value].
    destruct (digit_char_is_digit (n mod 10)) as [_ ->];
      [apply Z.mod_pos_bound; lia|].
    rewrite Nat2Z.inj_succ, Z.pow_succ_r by lia.
    rewrite Z.rem_mul_r by lia. lia.
Qed.

Lemma digits_fuel_value (f : nat) (n : Z) :
  (0 <= n < 10 ^ Z.of_nat f)%Z ->
  digits_value (digits_fuel f n "") 0 = n.
Proof.
  revert n. induction f as [|f IH]; intros n Hn.
  - simpl in *. lia.
  - cbn [digits_fuel].
    assert (Hd : digit_val (digit_char (n mod 10)) = (n mod 10)%Z).
    { apply digit_char_is_digit, Z.mod_pos_bound. lia. }
    destruct (n <? 10)%Z eqn:Hlt.
    + apply Z.ltb_lt in Hlt. cbn [digits_value]. rewrite Hd.
      rewrite Z.mod_small by lia. lia.
    + apply Z.ltb_ge in Hlt.
      rewrite digits_fuel_acc, digits_value_append. cbn [digits_value].
      rewrite IH, Hd.
      * pose proof (Z.div_mod n 10). lia.
      * rewrite Nat2Z.inj_succ, Z.pow_succ_r in Hn by lia.
        split; [apply Z.div_pos; lia|].
        apply Z.div_lt_upper_bound; lia.
Qed.

Lemma str_of_nonneg_value (n : Z) :
  (0 <= n)%Z -> digits_value (str_of_nonneg n) 0 = n.
Proof.
  intros Hn. apply digits_fuel_value. split; [exact Hn|].
  destruct (Z.eq_dec n 0) as [->|Hz]; [reflexivity|].
  rewrite Nat2Z.inj_succ, Z2Nat.id by apply Z.log2_nonneg.
  pose proof (Z.log2_spec n ltac:(lia)) as [_ H].
  eapply Z.lt_le_trans; [exact H|].
  apply Z.pow_le_mono_l. lia.
Qed.

End StringFacts.

(** ** Reading rendered digits back *)

Lemma scan_digits_digits (ds rest : string) (acc : Z) (cnt : nat) :
  all_digits ds = true ->
  scan_digits (ds ++ rest) acc cnt
  = scan_digits rest (digits_value ds acc) (cnt + String.length ds).
Proof.
  revert acc cnt. induction ds as [|c ds IH]; intros acc cnt Hd.
  - simpl. now rewrite Nat.add_0_r.
  - unfold all_digits in Hd. simpl in Hd. apply andb_prop in Hd as [Hc Hd].
    cbn [append scan_digits digits_value String.length]. rewrite Hc.
    rewrite IH by exact Hd. f_equal. lia.
Qed.

Lemma scan_digits_stop (c : ascii) (r : string) (acc : Z) (cnt : nat) :
  is_digit c = false -> Ascii.eqb c "_" = false ->
  scan_digits (String c r) acc cnt = (acc, cnt, String c r).
Proof. intros H1 H2. simpl. now rewrite H1, H2. Qed.

Lemma rstrip_no_space (s : string) : no_space s = true -> rstrip s = s.
Proof.
  induction s as [|c s IH]; [reflexivity|].
  unfold no_space. simpl. intros H. apply andb_prop in H as [Hc Hs].
  rewrite (IH Hs). apply negb_true_iff in Hc. rewrite Hc.
  now destruct s.
Qed.

Lemma lstrip_no_space (s : string) : no_space s = true -> lstrip s = s.
Proof.
  destruct s as [|c s]; [reflexivity|].
  unfold no_space. simpl. intros H. apply andb_prop in H as [Hc _].
  apply negb_true_iff in Hc. now rewrite Hc.
Qed.

Lemma strip_no_space (s : string) : no_space s = true -> strip s = s.
Proof.
  intros H. unfold strip. now rewrite (lstrip_no_space s H), rstrip_no_space.
Qed.

Lemma format_fixed6_shape (q : Z) :
  exists c r,
    format_fixed6 q = String c r /\ is_digit c = true /\
    no_space (format_fixed6 q) = true /\
    has_exponent (format_fixed6 q) = false.
Proof.
  unfold format_fixed6.
  destruct (str_of_nonneg_nonempty (q / 1000000)) as (c & r & Hs & Hc).
  exists c, (r ++ "." ++ fixed_digits 6 (q mod 1000000) "").
  pose proof (str_of_nonneg_all_digits (q / 1000000)) as Hi.
  pose proof (fixed_digits_all_digits 6 (q mod 1000000)) as Hf.
  repeat split.
  - now rewrite Hs.
  - exact Hc.
  - rewrite !no_space_append, (all_digits_no_space _ Hi),
      (all_digits_no_space _ Hf). reflexivity.
  - rewrite !has_exponent_append, (all_digits_no_exponent _ Hi),
      (all_digits_no_exponent _ Hf). reflexivity.
Qed.

Lemma split_never_empty (sep : ascii) (s : string) : split sep s <> [].
Proof.
  destruct s as [|c s]; simpl; [discriminate|].
  destruct (Ascii.eqb c sep); [discriminate|].
  destruct (split sep s); discriminate.
Qed.

Lemma split_digits (sep : ascii) (ds rest : string) :
  is_digit sep = false ->
  all_digits ds = true ->
  split sep (ds ++ rest)
  = match split sep rest with
    | t :: ts => (ds ++ t) :: ts
    | [] => [ds]
    end.
Proof.
  intros Hsep. induction ds as [|c ds IH]; intros Hd.
  - simpl. pose proof (split_never_empty sep rest) as Hne.
    now destruct (split sep rest).
  - unfold all_digits in Hd. simpl in Hd. apply andb_prop in Hd as [Hc Hd].
    cbn [append split].
    assert (Hne : Ascii.eqb c sep = false).
    { destruct (Ascii.eqb_spec c sep) as [->|]; [congruence|reflexivity]. }
    rewrite Hne, (IH Hd). now destruct (split sep rest).
Qed.

Lemma digit_not_minus (c : ascii) (r : string) :
  is_digit c = true ->
  match String c r with String "-" r' => r' | _ => String c r end = String c r.
Proof.
  destruct c as [[] [] [] [] [] [] [] []]; cbv; intros H;
    try discriminate H; reflexivity.
Qed.

Lemma format_fixed6_is_fixed_point (s : bool) (q : Z) :
  is_fixed_point (sign_str s ++ format_fixed6 q) = true.
Proof.
  destruct (format_fixed6_shape q) as (c & r & Hq & Hc & _).
  assert (Hbody : is_fixed_point (format_fixed6 q) = true).
  { unfold is_fixed_point. rewrite Hq, (digit_not_minus c r Hc), <- Hq.
    unfold format_fixed6.
    pose proof (str_of_nonneg_all_digits (q / 1000000)) as Hi.
    pose proof (fixed_digits_all_digits 6 (q mod 1000000)) as Hf.
    rewrite (split_digits "." _ _ eq_refl Hi).
    cbn [append split Ascii.eqb Bool.eqb].
    rewrite <- (append_empty_r (fixed_digits 6 _ "")).
    rewrite (split_digits "." _ _ eq_refl Hf).
    cbn [split]. rewrite !append_empty_r, Hi, Hf, fixed_digits_length.
    destruct (str_of_nonneg_nonempty (q / 1000000)) as (c' & r' & -> & _).
    reflexivity. }
  destruct s; [|exact Hbody].
  unfold is_fixed_point in *. cbn [sign_str append].
  destruct (format_fixed6 q) as [|c0 r0] eqn:E; [discriminate|].
  injection Hq as -> ->. now rewrite (digit_not_minus c r Hc) in Hbody.
Qed.

(** The rendering of a finite double is in fixed notation. *)
Lemma format_f_finite_fixed (x : double) :
  is_finite x = true -> is_fixed_point (format_f x) = true.
Proof.
  destruct x as [s|s| |s m e]; simpl; intros H; try discriminate H;
    apply format_fixed6_is_fixed_point.
Qed.

(** No rendering has whitespace or an exponent in it, and none is empty. *)
Lemma format_f_token (x : double) :
  no_space (format_f x) = true /\ has_exponent (format_f x) = false /\
  format_f x <> "".
Proof.
  assert (K : forall s q,
             no_space (sign_str s ++ format_fixed6 q) = true /\
             has_exponent (sign_str s ++ format_fixed6 q) = false /\
             sign_str s ++ format_fixed6 q <> "").
  { intros s q. destruct (format_fixed6_shape q) as (c & r & Hq & _ & Hn & He).
    rewrite no_space_append, has_exponent_append, Hn, He.
    repeat split; try (now destruct s).
    rewrite Hq. now destruct s. }
  destruct x as [s|s| |s m e]; simpl; try apply K;
    try (destruct s); repeat split; discriminate.
Qed.

Lemma scan_sign_digit (c : ascii) (r : string) :
  is_digit c = true -> scan_sign (String c r) = (false, String c r).
Proof.
  destruct c as [[] [] [] [] [] [] [] []]; cbv; intros H;
    try discriminate H; reflexivity.
Qed.

Lemma digit_not_special (c : ascii) (r : string) :
  is_digit c = true ->
  ((lowercase (String c r) =? "inf")%string = false) /\
  ((lowercase (String c r) =? "infinity")%string = false) /\
  ((lowercase (String c r) =? "nan")%string = false).
Proof.
  intros H. destruct (digit_facts c H) as (_ & _ & _ & _ & _ & _ & _ & _ & Hi & Hn & _).
  cbn [lowercase String.eqb]. now rewrite Hi, Hn.
Qed.

(** Python's float grammar reads a fixed-point rendering as the number of
    millionths it was made from. *)
Lemma parse_fixed6 (s : bool) (q : Z) :
  (0 <= q)%Z ->
  parse_literal (sign_str s ++ format_fixed6 q) = Some (LitNum s q (-6)).
Proof.
  intros Hq.
  destruct (format_fixed6_shape q) as (c & r & Hs & Hc & Hn & _).
  assert (Hstrip : strip (sign_str s ++ format_fixed6 q)
                   = sign_str s ++ format_fixed6 q).
  { apply strip_no_space. rewrite no_space_append, Hn. now destruct s. }
  assert (Hsign : scan_sign (sign_str s ++ format_fixed6 q)
                  = (s, format_fixed6 q)).
  { destruct s; [reflexivity|]. cbn [sign_str append].
    rewrite Hs. now apply scan_sign_digit. }
  unfold parse_literal. rewrite Hstrip, Hsign.
  destruct (digit_not_special c r Hc) as (H1 & H2 & H3).
  rewrite Hs, H1, H2, H3, <- Hs. cbn [orb].
  unfold format_fixed6.
  pose proof (str_of_nonneg_all_digits (q / 1000000)) as Hi.
  pose proof (fixed_digits_all_digits 6 (q mod 1000000)) as Hf.
  rewrite (scan_digits_digits _ _ _ _ Hi).
  cbn [append]. rewrite scan_digits_stop by reflexivity.
  rewrite <- (append_empty_r (fixed_digits 6 _ "")).
  rewrite (scan_digits_digits _ _ _ _ Hf).
  cbn [scan_digits]. rewrite fixed_digits_length.
  rewrite str_of_nonneg_value by (apply Z.div_pos; lia).
  rewrite digits_value_acc, fixed_digits_length, fixed_digits_value
    by (apply Z.mod_pos_bound; lia).
  rewrite (Nat.add_comm _ (0 + 6)). cbn [Nat.add scan_exponent].
  do 3 f_equal.
  - change (10 ^ Z.of_nat 6)%Z with 1000000%Z.
    rewrite Z.mod_mod by lia. pose proof (Z.div_mod q 1000000). lia.
Qed.

(** ** How far a rendering is from the value *)

Lemma round_half_even_close (n d : Z) :
  (0 < d)%Z ->
  (Z.abs (2 * (round_half_even n d * d - n)) <= d)%Z.
Proof.
  intros Hd. unfold round_half_even.
  pose proof (Z.div_mod n d ltac:(lia)) as Hdm.
  pose proof (Z.mod_pos_bound n d Hd) as Hr.
  destruct (2 * (n mod d) <? d)%Z eqn:E1; [apply Z.ltb_lt in E1; nia|].
  apply Z.ltb_ge in E1.
  destruct (d <? 2 * (n mod d))%Z eqn:E2; [apply Z.ltb_lt in E2; nia|].
  apply Z.ltb_ge in E2.
  destruct (Z.even (n / d)); nia.
Qed.

Lemma round_half_even_nonneg (n d : Z) :
  (0 <= n)%Z -> (0 < d)%Z -> (0 <= round_half_even n d)%Z.
Proof.
  intros Hn Hd. unfold round_half_even.
  pose proof (Z.div_pos n d Hn Hd).
  destruct (_ <? _)%Z; [lia|]. destruct (_ <? _)%Z; [lia|].
  destruct (Z.even _); lia.
Qed.

Lemma sf_den_pos (e : Z) : (0 < sf_den e)%Z.
Proof.
  unfold sf_den. destruct (0 <=? e)%Z eqn:E; [lia|].
  apply Z.leb_gt in E. apply Z.pow_pos_nonneg; lia.
Qed.

Lemma sf_num_pos (m : positive) (e : Z) : (0 < sf_num m e)%Z.
Proof.
  unfold sf_num. destruct (0 <=? e)%Z eqn:E; [|lia].
  apply Z.leb_le in E. pose proof (Z.pow_pos_nonneg 2 e ltac:(lia) E). nia.
Qed.

Lemma millionths_nonneg (m : positive) (e : Z) : (0 <= millionths m e)%Z.
Proof.
  unfold millionths. apply round_half_even_nonneg.
  - pose proof (sf_num_pos m e). lia.
  - apply sf_den_pos.
Qed.

(** Half a millionth. *)
Definition half_unit : Q := Qmake 1 2000000.

Lemma millionths_close (s : bool) (m : positive) (e : Z) :
  Qle (Qabs (Qminus (literal_value (LitNum s (millionths m e) (-6)))
                    (value (S754_finite s m e))))
      half_unit.
Proof.
  pose proof (round_half_even_close (sf_num m e * 1000000) (sf_den e)
                (sf_den_pos e)) as H.
  pose proof (sf_den_pos e) as Hd.
  fold (millionths m e) in H.
  unfold literal_value, value, half_unit.
  change (0 <=? -6)%Z with false. cbv iota.
  change (Z.to_pos (10 ^ (- (-6)))) with 1000000%positive.
  destruct s; unfold Qle, Qabs, Qminus, Qplus, Qopp; cbn [Qnum Qden];
    rewrite ?Pos2Z.inj_mul, ?Z2Pos.id by exact Hd; lia.
Qed.

(** ** The layout of an encoded car *)

(** The text the format string produces from the converted operands. *)
Fixpoint render (xs : list double) : string :=
  match xs with
  | [] => newline
  | x :: xs' => " " ++ format_f x ++ render xs'
  end.

Lemma format_operands_render (vs : list pyval) (line : string) :
  format_operands vs = Ok line ->
  exists xs, Forall2 (fun v x => float_arg v = Ok x) vs xs /\
             line = render xs.
Proof.
  revert line. induction vs as [|v vs IH]; intros line; simpl.
  - intros H. injection H as <-. now exists [].
  - destruct (float_arg v) as [x|] eqn:Hx; [|discriminate]. simpl.
    destruct (format_operands vs) as [rest|]; [|discriminate]. simpl.
    intros H. injection H as <-.
    destruct (IH rest eq_refl) as (xs & Hxs & ->).
    exists (x :: xs). split; [now constructor | reflexivity].
Qed.

Lemma render_join (x : double) (xs : list double) :
  render (x :: xs) = " " ++ join " " (map format_f (x :: xs)) ++ newline.
Proof.
  revert x. induction xs as [|y xs IH]; intros x.
  - reflexivity.
  - change (render (x :: y :: xs)) with (" " ++ format_f x ++ render (y :: xs)).
    rewrite IH. cbn [map join String.concat append].
    now rewrite !append_assoc.
Qed.

Lemma split_ws_aux_token (t rest cur : string) :
  no_space t = true ->
  split_ws_aux (t ++ rest) cur = split_ws_aux rest (cur ++ t).
Proof.
  revert cur. induction t as [|c t IH]; intros cur H.
  - simpl. now rewrite append_empty_r.
  - unfold no_space in H. simpl in H. apply andb_prop in H as [Hc Ht].
    apply negb_true_iff in Hc. cbn [append split_ws_aux]. rewrite Hc.
    rewrite (IH _ Ht), append_assoc. reflexivity.
Qed.

Lemma split_ws_render (xs : list double) :
  split_ws_aux (render xs) "" = map format_f xs /\
  (forall cur, cur <> "" ->
               split_ws_aux (render xs) cur = cur :: map format_f xs).
Proof.
  induction xs as [|x xs [IH1 IH2]].
  - split; [reflexivity|]. intros cur Hc. simpl. now destruct cur.
  - destruct (format_f_token x) as (Hn & _ & Hne).
    assert (H0 : split_ws_aux (render (x :: xs)) "" = map format_f (x :: xs)).
    { cbn [render append split_ws_aux is_space]. simpl is_space.
      cbv iota. rewrite (split_ws_aux_token _ _ _ Hn). cbn [append].
      now rewrite (IH2 _ Hne). }
    split; [exact H0|]. intros cur Hc.
    change (render (x :: xs)) with (String " " (format_f x ++ render xs)).
    cbn [split_ws_aux]. change (is_space " ") with true. cbv iota.
    destruct cur as [|c cur]; [now elim Hc|].
    f_equal. exact H0.
Qed.

Lemma render_no_exponent (xs : list double) : has_exponent (render xs) = false.
Proof.
  induction xs as [|x xs IH]; [reflexivity|].
  cbn [render]. rewrite !has_exponent_append, IH.
  destruct (format_f_token x) as (_ & -> & _). reflexivity.
Qed.

(** ** The operands of a validated car *)

Lemma check_entries_all_num (label : string) (idx : nat) (l : list pyval) :
  check_entries label idx l = Ok tt -> forallb is_num l = true.
Proof.
  revert idx. induction l as [|v l IH]; intros idx; simpl; [reflexivity|].
  unfold _check_num. destruct (is_num v); simpl; [|discriminate].
  apply IH.
Qed.

Lemma check_nums_items (label : string) (n : nat) (v : pyval) :
  _check_nums label n v = Ok tt ->
  exists l, items v = Some l /\ List.length l = n /\ forallb is_num l = true.
Proof.
  unfold _check_nums, py_len. destruct (has_len v); simpl; [|discriminate].
  destruct (items v) as [l|]; simpl; [|discriminate].
  destruct (Nat.eqb_spec (List.length l) n) as [E|]; simpl; [|discriminate].
  intros H. exists l. repeat split; [exact E|].
  now apply check_entries_all_num in H.
Qed.

Lemma format_operands_total (vs : list pyval) :
  forallb is_num vs = true ->
  (exists line, format_operands vs = Ok line) \/
  format_operands vs = Raise OverflowError.
Proof.
  induction vs as [|v vs IH]; simpl; intros H.
  - left. now eexists.
  - apply andb_prop in H as [Hv Hvs].
    assert (Hf : (exists x, float_arg v = Ok x) \/
                 float_arg v = Raise OverflowError).
    { destruct v; simpl in *; try discriminate; try (left; now eexists).
      destruct (float_of_int z); [left; now eexists | now right]. }
    destruct Hf as [[x ->] | ->]; simpl; [|now right].
    destruct (IH Hvs) as [[rest ->] | ->]; simpl; [left; now eexists|now right].
Qed.

(** A car that passed the checks of [simulate] (or the per-car checks of
    [race]). *)
Definition validated (frame_width upper_shape lower_shape left_wheel
                      right_wheel : pyval) : Prop :=
  is_num frame_width = true /\
  _check_nums "upper_shape" 5 upper_shape = Ok tt /\
  _check_nums "lower_shape" 5 lower_shape = Ok tt /\
  _check_nums "left_wheel" 2 left_wheel = Ok tt /\
  _check_nums "right_wheel" 2 right_wheel = Ok tt.

Lemma validated_operands (fw us ls lw rw : pyval) :
  validated fw us ls lw rw ->
  exists vs, operands fw us ls lw rw = Ok vs /\ forallb is_num vs = true.
Proof.
  intros (Hfw & Hu & Hl & Ha & Hb).
  destruct (check_nums_items _ _ _ Hu) as (lu & Hgu & Hnu & Hau).
  destruct (check_nums_items _ _ _ Hl) as (ll & Hgl & Hnl & Hal).
  destruct (check_nums_items _ _ _ Ha) as (la & Hga & Hna & Haa).
  destruct (check_nums_items _ _ _ Hb) as (lb & Hgb & Hnb & Hab).
  destruct lu as [|u0 [|u1 [|u2 [|u3 [|u4 [|]]]]]]; try discriminate Hnu.
  destruct ll as [|l0 [|l1 [|l2 [|l3 [|l4 [|]]]]]]; try discriminate Hnl.
  destruct la as [|a0 [|a1 [|]]]; try discriminate Hna.
  destruct lb as [|b0 [|b1 [|]]]; try discriminate Hnb.
  unfold operands, getitem. rewrite Hgu, Hgl, Hga, Hgb. simpl.
  eexists. split; [reflexivity|].
  simpl in *. rewrite Hfw.
  repeat match goal with
         | H : (_ && _)%bool = true |- _ => apply andb_prop in H as [? H]
         end.
  repeat match goal with
         | H : is_num _ = true |- _ => rewrite H; clear H
         end.
  reflexivity.
Qed.

(** ** Cutting an encoded line back into its numbers *)

Definition lacks (sep : ascii) (s : string) : bool :=
  forallb (fun c => negb (Ascii.eqb c sep)) (list_ascii_of_string s).

Lemma lacks_append (sep : ascii) (a b : string) :
  lacks sep (a ++ b) = (lacks sep a && lacks sep b)%bool.
Proof. unfold lacks. now rewrite chars_append, forallb_app. Qed.

Lemma no_space_lacks (sep : ascii) (s : string) :
  is_space sep = true -> no_space s = true -> lacks sep s = true.
Proof.
  intros Hsep. unfold no_space, lacks.
  induction (list_ascii_of_string s) as [|c l IH]; simpl; [reflexivity|].
  intros H. apply andb_prop in H as [Hc Hl]. rewrite (IH Hl), andb_true_r.
  destruct (Ascii.eqb_spec c sep) as [->|]; [|reflexivity].
  now rewrite Hsep in Hc.
Qed.

Lemma split_lacks (sep : ascii) (t rest : string) :
  lacks sep t = true ->
  split sep (t ++ rest)
  = match split sep rest with
    | hd :: tl => (t ++ hd) :: tl
    | [] => [t]
    end.
Proof.
  induction t as [|c t IH]; intros Ht.
  - simpl. pose proof (split_never_empty sep rest). now destruct (split sep rest).
  - unfold lacks in Ht. simpl in Ht. apply andb_prop in Ht as [Hc Ht].
    apply negb_true_iff in Hc. cbn [append split]. rewrite Hc, (IH Ht).
    now destruct (split sep rest).
Qed.

Lemma split_join (sep : ascii) (t : string) (ts : list string) :
  Forall (fun u => lacks sep u = true) (t :: ts) ->
  split sep (join (String sep "") (t :: ts)) = t :: ts.
Proof.
  revert t. induction ts as [|u ts IH]; intros t H.
  - inversion_clear H as [|? ? Ht _]. simpl.
    rewrite <- (append_empty_r t), (split_lacks _ _ _ Ht). simpl.
    now rewrite append_empty_r.
  - inversion_clear H as [|? ? Ht Hts].
    change (join (String sep "") (t :: u :: ts))
      with (t ++ String sep (join (String sep "") (u :: ts))).
    rewrite (split_lacks _ _ _ Ht). cbn [split]. rewrite Ascii.eqb_refl.
    now rewrite (IH u Hts), append_empty_r.
Qed.

(** The layout C4 describes, as a check on a line: a leading space, then
    fifteen numbers in fixed notation separated by single spaces, then one
    newline, which ends the line. *)
Definition fifteen_fixed_point (line : string) : bool :=
  match line with
  | String " " r =>
      match split "010" r with
      | [body; ""] =>
          let ts := split " " body in
          (Nat.eqb (List.length ts) 15 && forallb is_fixed_point ts)%bool
      | _ => false
      end
  | _ => false
  end.

Lemma join_lacks_newline (ts : list string) :
  Forall (fun u => no_space u = true) ts ->
  lacks "010" (join " " ts) = true.
Proof.
  induction ts as [|t ts IH]; intros H; [reflexivity|].
  inversion_clear H as [|? ? Ht Hts].
  pose proof (no_space_lacks "010" t eq_refl Ht) as Hl.
  destruct ts as [|u ts]; [exact Hl|].
  change (join " " (t :: u :: ts)) with (t ++ String " " (join " " (u :: ts))).
  rewrite lacks_append, Hl. unfold lacks at 1. cbn [list_ascii_of_string forallb].
  fold (lacks "010" (join " " (u :: ts))). now rewrite (IH Hts).
Qed.

Lemma render_fifteen (xs : list double) :
  List.length xs = 15%nat ->
  Forall (fun x => is_finite x = true) xs ->
  fifteen_fixed_point (render xs) = true.
Proof.
  intros Hlen Hfin. destruct xs as [|x xs]; [discriminate|].
  rewrite render_join. set (ts := map format_f (x :: xs)).
  assert (Hns : Forall (fun u => no_space u = true) ts).
  { unfold ts. apply Forall_map, Forall_forall. intros y _.
    now destruct (format_f_token y). }
  unfold fifteen_fixed_point. cbn [append].
  rewrite (split_lacks _ _ _ (join_lacks_newline ts Hns)).
  cbn [split newline Ascii.eqb Bool.eqb]. rewrite append_empty_r.
  assert (Hsp : split " " (join " " ts) = ts).
  { unfold ts. cbn [map]. apply split_join. fold (map format_f xs).
    change (format_f x :: map format_f xs) with ts.
    eapply Forall_impl; [|exact Hns]. intros u Hu.
    now apply no_space_lacks. }
  cbv zeta. rewrite Hsp. unfold ts. rewrite length_map, Hlen. cbn [Nat.eqb andb].
  apply forallb_forall. intros t Ht. apply in_map_iff in Ht as (y & <- & Hy).
  apply format_f_finite_fixed. rewrite Forall_forall in Hfin. now apply Hfin.
Qed.

(** ** The shape of what the methods return *)

Lemma assign_row_width (width : nat) (values row : list double) :
  assign_row width values = Ok row -> List.length row = width.
Proof.
  unfold assign_row. destruct (Nat.eqb_spec (List.length values) width) as [E|_].
  - intros H. injection H as <-. exact E.
  - destruct values as [|x [|y l]]; try discriminate.
    intros H. injection H as <-. apply repeat_length.
Qed.

Lemma recv_rows_shape (width n : nat) (s s' : state)
      (rows : list (list double)) :
  recv_rows width n s = (Ok rows, s') ->
  List.length rows = n /\ Forall (fun r => List.length r = width) rows.
Proof.
  revert s s' rows. induction n as [|n IH]; intros s s' rows; simpl.
  - intros H. injection H as <- _. now split.
  - cbv beta iota delta [bind lift ret].
    destruct (stdout_readline s) as [[raw|x] s1]; [|discriminate].
    destruct (parse_tokens _) as [values|]; [|discriminate].
    destruct (assign_row width values) as [row|] eqn:Hrow; [|discriminate].
    destruct (recv_rows width n s1) as [[rest|x] s2] eqn:Hrest; [|discriminate].
    intros H. injection H as <- _.
    destruct (IH _ _ _ Hrest) as [Hl Hf].
    split; [simpl; now rewrite Hl|].
    constructor; [now apply assign_row_width in Hrow | exact Hf].
Qed.

(** The method [Simulator.simulate], when an attempt succeeds, returns a
    matrix of three columns with as many rows as the first reply line
    announced. *)
Lemma simulate_body_trace (a b c d e : pyval) (s s' : state) (v : retval) :
  Simulator.simulate_body a b c d e s = (Ok v, s') ->
  exists s1 raw s2 N rows,
    request (OpSimulate a b c d e) s = (Ok tt, s1) /\
    stdout_readline s1 = (Ok raw, s2) /\
    py_int (rstrip raw) = Ok N /\ (0 <= N)%Z /\
    v = RMatrix rows /\
    List.length rows = Z.to_nat N /\
    Forall (fun r => List.length r = 3%nat) rows.
Proof.
  intros H.
  destruct (request (OpSimulate a b c d e) s) as [[[]|x] s1] eqn:Hq.
  - change (body (OpSimulate a b c d e) s = (Ok v, s')) in H.
    rewrite (body_request_reply (OpSimulate a b c d e) s s1 Hq) in H.
    unfold bind at 1 in H. unfold _recv, bind at 1 in H.
    destruct (stdout_readline s1) as [[raw|x] s2] eqn:Hr; [|discriminate].
    destruct (startswith "ERR " (rstrip raw)); [discriminate|].
    unfold ret at 1 in H. cbn [decode] in H.
    unfold bind at 1, lift at 1 in H.
    destruct (py_int (rstrip raw)) as [N|] eqn:HN; [|discriminate].
    unfold _recv_states in H.
    destruct (N <? 0)%Z eqn:Hneg; [discriminate|].
    apply Z.ltb_ge in Hneg. unfold bind, ret in H.
    destruct (recv_rows 3 (Z.to_nat N) s2) as [[rows|x] s3] eqn:Hrows;
      [|discriminate].
    injection H as <- _.
    destruct (recv_rows_shape _ _ _ _ _ Hrows) as [Hl Hf].
    exists s1, raw, s2, N, rows. repeat split; assumption.
  - exfalso. revert Hq H. unfold request, Simulator.simulate_body.
    cbv beta iota delta [bind lift].
    repeat match goal with
           | |- match ?r with Ok _ => _ | Raise _ => _ end = _ -> _ =>
               destruct r; [|intros _ H; discriminate H]
           end.
    match goal with
    | |- ?m = _ -> _ => destruct m as [[[]|y] s0]
    end; intros Hq H; [discriminate Hq | discriminate H].
Qed.

(** The module-level [simulate] never hands a trace to its caller. *)
Lemma simulate_returns_None (a b c d e : pyval) (s s' : state) (v : retval) :
  simulate a b c d e s = (Ok v, s') -> v = RNone.
Proof.
  unfold simulate, bind, ret.
  destruct (Simulator.simulate a b c d e s) as [[w|x] s1]; [|discriminate].
  intros H. now injection H as <- _.
Qed.

(* ================================================================== *)
(** * Concrete runs *)
(* ================================================================== *)

Module Example.

Definition zero : pyval := PyFloat (S754_zero false).
Definition one : pyval := PyFloat (S754_finite false 4503599627370496 (-52)).
Definition nan : pyval := PyFloat S754_nan.
Definition inf : pyval := PyNpDouble (S754_infinity false).

(** [2**53 + 1], an [int] that no double represents. *)
Definition big : pyval := PyInt 9007199254740993.

Definition shape : pyval := PyList [zero; one; zero; one; zero].
Definition wheel : pyval := PyList [one; zero].
Definition car : pyval := PyTuple [one; shape; shape; wheel; wheel].

(** A worker that answers with the given lines and exits when told to. *)
Definition healthy (replies : list string) : script :=
  {| sc_replies := replies; sc_broken := fun _ => false;
     sc_exit_delay := Some 1%Z |}.

(** A worker that died: every write finds the pipe broken. *)
Definition dead : script :=
  {| sc_replies := []; sc_broken := fun _ => true;
     sc_exit_delay := Some 0%Z |}.

(** A worker that ignores the end of its input. *)
Definition stubborn : script :=
  {| sc_replies := []; sc_broken := fun _ => false; sc_exit_delay := None |}.

(** A world in which the first two launches start the given workers and
    every later launch fails. *)
Definition world (first second : script) : environment :=
  {| env_entropy := fun _ => 77777%Z;
     env_popen := fun n => match n with
                           | 0 => Some first
                           | 1 => Some second
                           | _ => None
                           end%nat |}.

(** The state after [import carsim] in that world. *)
Definition started (first second : script) : state :=
  snd (import_module (world first second)).

Definition line (s : string) : string := s ++ newline.

End Example.

Import Example.

(** C3.  With a worker that announces one state and sends it, the method
    [Simulator.simulate] returns the one-row trace, and the module-level
    [simulate], the public operation, returns [None] from the same run. *)
Theorem simulate_drops_the_trace :
  let s := started (healthy [line "1"; line "0.5 0 0"]) dead in
  fst (Simulator.simulate one shape shape wheel wheel s)
  = Ok (RMatrix [[S754_finite false 4503599627370496 (-53);
                  S754_zero false; S754_zero false]]) /\
  fst (simulate one shape shape wheel wheel s) = Ok RNone /\
  snd (simulate one shape shape wheel wheel s)
  = snd (Simulator.simulate one shape shape wheel wheel s).
Proof. vm_compute. repeat split. Qed.

(* ================================================================== *)
(** * The encoding of a car *)
(* ================================================================== *)

(** What a rendered operand looks like. *)
Definition token_ok (x : double) : Prop :=
  format_f x <> "" /\
  no_space (format_f x) = true /\
  (is_finite x = true -> is_fixed_point (format_f x) = true) /\
  (is_finite x = false ->
   format_f x = "nan" \/ format_f x = "inf" \/ format_f x = "-inf").

Lemma format_f_token_ok (x : double) : token_ok x.
Proof.
  destruct (format_f_token x) as (Hn & _ & Hne).
  repeat split; try assumption.
  - apply format_f_finite_fixed.
  - destruct x as [s|[]| |s m e]; simpl; intros H; try discriminate H; auto.
Qed.

(** A validated car that encodes: its fifteen operands in order, their
    conversions, and the line. *)
Lemma car_spec_render (fw us ls lw rw : pyval) (encoded : string) :
  validated fw us ls lw rw ->
  _car_spec fw us ls lw rw = Ok encoded ->
  exists lu ll la lb xs,
    items us = Some lu /\ items ls = Some ll /\
    items lw = Some la /\ items rw = Some lb /\
    Forall2 (fun v x => float_arg v = Ok x)
            (fw :: lu ++ ll ++ la ++ lb)%list xs /\
    List.length xs = 15%nat /\
    encoded = render xs.
Proof.
  intros (Hfw & Hu & Hl & Ha & Hb) H.
  destruct (check_nums_items _ _ _ Hu) as (lu & Hgu & Hnu & _).
  destruct (check_nums_items _ _ _ Hl) as (ll & Hgl & Hnl & _).
  destruct (check_nums_items _ _ _ Ha) as (la & Hga & Hna & _).
  destruct (check_nums_items _ _ _ Hb) as (lb & Hgb & Hnb & _).
  destruct lu as [|u0 [|u1 [|u2 [|u3 [|u4 [|]]]]]]; try discriminate Hnu.
  destruct ll as [|l0 [|l1 [|l2 [|l3 [|l4 [|]]]]]]; try discriminate Hnl.
  destruct la as [|a0 [|a1 [|]]]; try discriminate Hna.
  destruct lb as [|b0 [|b1 [|]]]; try discriminate Hnb.
  revert H. unfold _car_spec, operands, getitem.
  rewrite Hgu, Hgl, Hga, Hgb. cbn [nth_error rbind].
  intros H. destruct (format_operands_render _ _ H) as (xs & Hxs & ->).
  exists [u0; u1; u2; u3; u4], [l0; l1; l2; l3; l4], [a0; a1], [b0; b1], xs.
  repeat split; try reflexivity; try exact Hxs.
  apply Forall2_length in Hxs. now rewrite <- Hxs.
Qed.

(** C4, as the code has it.  For every validated car that encodes, the line
    is a space, the fifteen operands rendered by [%f] in the order
    frame_width, upper_shape[0..4], lower_shape[0..4], left_wheel[0..1],
    right_wheel[0..1] and separated by single spaces, and a newline; no
    rendering is empty or has whitespace in it.  A finite operand is
    rendered in fixed notation with six decimals, a NaN or an infinity as
    [nan], [inf] or [-inf]; when all fifteen are finite the line is exactly
    fifteen fixed-point numbers.  A validated car always encodes, except
    that an [int] beyond the range of a double raises [OverflowError]. *)
Theorem car_spec_layout (fw us ls lw rw : pyval) :
  validated fw us ls lw rw ->
  ((exists encoded, _car_spec fw us ls lw rw = Ok encoded) \/
   _car_spec fw us ls lw rw = Raise OverflowError) /\
  (forall encoded,
      _car_spec fw us ls lw rw = Ok encoded ->
      exists lu ll la lb xs,
        items us = Some lu /\ items ls = Some ll /\
        items lw = Some la /\ items rw = Some lb /\
        Forall2 (fun v x => float_arg v = Ok x)
                (fw :: lu ++ ll ++ la ++ lb)%list xs /\
        List.length xs = 15%nat /\
        encoded = " " ++ join " " (map format_f xs) ++ newline /\
        Forall token_ok xs /\
        (Forall (fun x => is_finite x = true) xs ->
         fifteen_fixed_point encoded = true)).
Proof.
  intros Hv. split.
  - destruct (validated_operands _ _ _ _ _ Hv) as (vs & Hvs & Hnum).
    unfold _car_spec. rewrite Hvs. simpl.
    exact (format_operands_total vs Hnum).
  - intros encoded H.
    destruct (car_spec_render _ _ _ _ _ _ Hv H)
      as (lu & ll & la & lb & xs & Hu & Hl & Ha & Hb & Hxs & Hlen & ->).
    exists lu, ll, la, lb, xs. repeat split; try assumption.
    + destruct xs as [|x xs]; [discriminate Hlen|]. apply render_join.
    + apply Forall_forall. intros x _. apply format_f_token_ok.
    + intros Hfin. now apply render_fifteen.
Qed.

(** ** Reading the encoded numbers back *)

(** The number an operand stands for, when it is one. *)
Definition original_value (v : pyval) : option Q :=
  match v with
  | PyInt z => Some (inject_Z z)
  | PyFloat x | PyNpDouble x => if is_finite x then Some (value x) else None
  | _ => None
  end.

(** C5 for one operand: the token is a numeral whose value is within half a
    millionth of the operand. *)
Definition reproduces (v : pyval) (token : string) : Prop :=
  exists lit q,
    parse_literal token = Some lit /\
    original_value v = Some q /\
    Qle (Qabs (Qminus (literal_value lit) q)) half_unit.

(** What reading a rendering back gives. *)
Definition reads_back (x : double) : Prop :=
  match x with
  | S754_nan => parse_literal (format_f x) = Some LitNan
  | S754_infinity s => parse_literal (format_f x) = Some (LitInf s)
  | _ => exists lit,
           parse_literal (format_f x) = Some lit /\
           Qle (Qabs (Qminus (literal_value lit) (value x))) half_unit
  end.

Lemma format_f_reads_back (x : double) : reads_back x.
Proof.
  destruct x as [s|s| |s m e]; simpl.
  - exists (LitNum s 0 (-6)). split; [now destruct s|].
    now destruct s.
  - now destruct s.
  - reflexivity.
  - exists (LitNum s (millionths m e) (-6)). split.
    + apply parse_fixed6, millionths_nonneg.
    + apply millionths_close.
Qed.

Lemma format_f_accepted (x : double) :
  exists y, np_double (format_f x) = Some y /\
            (is_finite x = false -> y = x).
Proof.
  pose proof (format_f_reads_back x) as H. unfold np_double.
  destruct x as [s|s| |s m e]; cbn [reads_back] in H.
  - destruct H as (lit & -> & _). eexists. split; [reflexivity|discriminate].
  - rewrite H. eexists. split; reflexivity.
  - rewrite H. eexists. split; reflexivity.
  - destruct H as (lit & -> & _). eexists. split; [reflexivity|discriminate].
Qed.

(** C5, as the code has it.  For every validated car that encodes,
    splitting the line at whitespace gives exactly fifteen tokens, the
    renderings of the operands' double values in order (an [int] operand
    stands for the double nearest to it).  Read back as a float literal, the
    token of a finite value denotes a number within half a millionth of that
    value, and the tokens of NaN and of the infinities denote NaN and the
    same infinity. *)
Theorem car_spec_round_trip (fw us ls lw rw : pyval) (encoded : string) :
  validated fw us ls lw rw ->
  _car_spec fw us ls lw rw = Ok encoded ->
  exists lu ll la lb xs,
    items us = Some lu /\ items ls = Some ll /\
    items lw = Some la /\ items rw = Some lb /\
    Forall2 (fun v x => float_arg v = Ok x)
            (fw :: lu ++ ll ++ la ++ lb)%list xs /\
    split_ws encoded = map format_f xs /\
    List.length (split_ws encoded) = 15%nat /\
    Forall reads_back xs.
Proof.
  intros Hv H.
  destruct (car_spec_render _ _ _ _ _ _ Hv H)
    as (lu & ll & la & lb & xs & Hu & Hl & Ha & Hb & Hxs & Hlen & ->).
  exists lu, ll, la, lb, xs.
  destruct (split_ws_render xs) as [Hsplit _]. unfold split_ws.
  rewrite Hsplit, length_map.
  repeat split; try assumption.
  apply Forall_forall. intros x _. apply format_f_reads_back.
Qed.

(** C8, as the code has it.  The encoder never writes an exponent: the
    rendering of a finite value is in fixed notation with six decimals, and
    an encoded car has no exponent marker in it.  It does write the special
    values, as [nan], [inf] and [-inf].  The decoder accepts whatever the
    float grammar accepts: every rendering of the encoder, the special
    values included (which come back as themselves), and scientific
    notation. *)
Theorem codec_numbers :
  (forall x, has_exponent (format_f x) = false) /\
  (forall x, is_finite x = true -> is_fixed_point (format_f x) = true) /\
  (forall x, is_finite x = false ->
             format_f x = "nan" \/ format_f x = "inf" \/ format_f x = "-inf") /\
  (forall fw us ls lw rw encoded,
      _car_spec fw us ls lw rw = Ok encoded -> has_exponent encoded = false) /\
  (forall x, exists y, np_double (format_f x) = Some y /\
                       (is_finite x = false -> y = x)) /\
  np_double "1e5" = Some (S754_finite false 6871947673600000 (-36)).
Proof.
  repeat split.
  - intros x. now destruct (format_f_token x) as (_ & H & _).
  - apply format_f_finite_fixed.
  - intros x. now destruct (format_f_token_ok x) as (_ & _ & _ & H).
  - intros fw us ls lw rw encoded. unfold _car_spec.
    destruct (operands fw us ls lw rw) as [vs|]; simpl; [|discriminate].
    intros H. destruct (format_operands_render _ _ H) as (xs & _ & ->).
    apply render_no_exponent.
  - apply format_f_accepted.
Qed.

(* ================================================================== *)
(** * The properties on concrete runs *)
(* ================================================================== *)

(** C1 at a run: the first worker is dead, so the first [new_track] attempt
    ends in a broken pipe; the restart launches the second worker, which
    answers [DONE]. *)
Lemma restart_once_then_retry_once_witness :
  let s := started dead (healthy [line "DONE"]) in
  let s1 := snd (body OpNewTrack s) in
  let s2 := snd (_restart s1) in
  let s3 := snd (body OpNewTrack s2) in
  body OpNewTrack s = (Raise BrokenPipeError, s1) /\
  _restart s1 = (Ok tt, s2) /\
  body OpNewTrack s2 = (Ok RNone, s3) /\
  public OpNewTrack s = (returned OpNewTrack (Ok RNone), s3) /\
  n_popen s3 = S (n_popen s).
Proof.
  intros s s1 s2 s3.
  assert (H1 : body OpNewTrack s = (Raise BrokenPipeError, s1))
    by (vm_compute; reflexivity).
  assert (H2 : _restart s1 = (Ok tt, s2)) by (vm_compute; reflexivity).
  assert (H3 : body OpNewTrack s2 = (Ok RNone, s3))
    by (vm_compute; reflexivity).
  destruct (restart_once_then_retry_once OpNewTrack s) as (_ & H & _).
  destruct (H s1 s2 (Ok RNone) s3 H1 H2 H3) as (Hp & Hn & _).
  exact (conj H1 (conj H2 (conj H3 (conj Hp Hn)))).
Defined.

(** C2 as stated fails: in a [simulate] whose worker announces one state and
    then sends a line starting with [ERR ], that line is received, is cut
    into tokens and handed to the number parser, and the call raises
    [ValueError], not [SimulationError]. *)
Lemma error_line_counterexample :
  let s := started (healthy [line "1"; line "ERR boom"]) dead in
  let r := simulate one shape shape wheel wheel s in
  In (EvReadline 0 (line "ERR boom")) (trace (snd r)) /\
  startswith "ERR " (line "ERR boom") = true /\
  fst r = Raise ValueError /\
  fst r <> Raise (SimulationError (drop 4 (line "ERR boom"))) /\
  fst r <> Raise (SimulationError (drop 4 (rstrip (line "ERR boom")))).
Proof.
  cbv zeta. split; [vm_compute; now left|].
  split; [vm_compute; reflexivity|].
  assert (H : fst (simulate one shape shape wheel wheel
                     (started (healthy [line "1"; line "ERR boom"]) dead))
              = Raise ValueError) by (vm_compute; reflexivity).
  rewrite H. repeat split; discriminate.
Qed.

(** C2, amended, at a run: [new_track] against a worker that answers
    [ERR track generation failed]. *)
Lemma error_line_on_first_reply_witness :
  let raw := line "ERR track generation failed" in
  let s := started (healthy [raw]) dead in
  let s1 := snd (request OpNewTrack s) in
  let s2 := snd (stdout_readline s1) in
  request OpNewTrack s = (Ok tt, s1) /\
  stdout_readline s1 = (Ok raw, s2) /\
  startswith "ERR " (rstrip raw) = true /\
  drop 4 (rstrip raw) = "track generation failed" /\
  public OpNewTrack s = (Raise (SimulationError (drop 4 (rstrip raw))), s2) /\
  n_popen s2 = n_popen s.
Proof.
  intros raw s s1 s2.
  assert (H1 : request OpNewTrack s = (Ok tt, s1)) by (vm_compute; reflexivity).
  assert (H2 : stdout_readline s1 = (Ok raw, s2)) by (vm_compute; reflexivity).
  assert (H3 : startswith "ERR " (rstrip raw) = true)
    by (vm_compute; reflexivity).
  assert (H4 : drop 4 (rstrip raw) = "track generation failed")
    by (vm_compute; reflexivity).
  destruct (error_line_on_first_reply OpNewTrack) as [H _].
  destruct (H s s1 s2 raw H1 H2 H3) as [Hp Hn].
  exact (conj H1 (conj H2 (conj H3 (conj H4 (conj Hp Hn))))).
Defined.

(** C4 as stated fails: a car whose frame width is NaN passes validation,
    and its line starts with [nan], which is not a fixed-point number. *)
Lemma car_spec_layout_counterexample :
  validated nan shape shape wheel wheel /\
  _car_spec nan shape shape wheel wheel
  = Ok (line " nan 0.000000 1.000000 0.000000 1.000000 0.000000 0.000000 1.000000 0.000000 1.000000 0.000000 1.000000 0.000000 1.000000 0.000000") /\
  fifteen_fixed_point
    (line " nan 0.000000 1.000000 0.000000 1.000000 0.000000 0.000000 1.000000 0.000000 1.000000 0.000000 1.000000 0.000000 1.000000 0.000000")
  = false.
Proof.
  split; [repeat split; vm_compute; reflexivity|].
  split; vm_compute; reflexivity.
Qed.

(** Concrete operands determine their conversions. *)
Ltac invert_conversions :=
  repeat match goal with
         | H : Some _ = Some _ |- _ => injection H as <-
         | H : Forall2 _ (_ :: _) _ |- _ => inversion H; subst; clear H
         | H : Forall2 _ [] _ |- _ => inversion H; subst; clear H
         | H : float_arg _ = Ok _ |- _ => injection H as <-
         end.

(** C4, amended, at a car of finite numbers. *)
Lemma car_spec_layout_witness :
  validated one shape shape wheel wheel /\
  exists encoded,
    _car_spec one shape shape wheel wheel = Ok encoded /\
    fifteen_fixed_point encoded = true.
Proof.
  assert (Hv : validated one shape shape wheel wheel)
    by (repeat split; vm_compute; reflexivity).
  split; [exact Hv|].
  destruct (car_spec_layout one shape shape wheel wheel Hv)
    as [[[encoded He] | Hov] H]; [|vm_compute in Hov; discriminate Hov].
  exists encoded. split; [exact He|].
  destruct (H encoded He)
    as (lu & ll & la & lb & xs & Hu & Hl & Ha & Hb & Hxs & _ & _ & _ & Hfin).
  apply Hfin. simpl in Hu, Hl, Ha, Hb. invert_conversions.
  repeat constructor.
Defined.

(** C5 as stated fails: [2**53 + 1] is a number [_check_num] accepts; [%f]
    converts it to the nearest double before printing, so the first token of
    the line reads back as [2**53], one away from the input. *)
Lemma car_spec_round_trip_counterexample :
  validated big shape shape wheel wheel /\
  _car_spec big shape shape wheel wheel
  = Ok (line " 9007199254740992.000000 0.000000 1.000000 0.000000 1.000000 0.000000 0.000000 1.000000 0.000000 1.000000 0.000000 1.000000 0.000000 1.000000 0.000000") /\
  nth 0 (split_ws (line " 9007199254740992.000000 0.000000 1.000000 0.000000 1.000000 0.000000 0.000000 1.000000 0.000000 1.000000 0.000000 1.000000 0.000000 1.000000 0.000000")) ""
  = "9007199254740992.000000" /\
  ~ reproduces big "9007199254740992.000000".
Proof.
  split; [repeat split; vm_compute; reflexivity|].
  split; [vm_compute; reflexivity|].
  split; [vm_compute; reflexivity|].
  intros (lit & q & Hp & Hq & Hle).
  vm_compute in Hp. injection Hp as <-.
  injection Hq as <-.
  vm_compute in Hle. now apply Hle.
Qed.

(** C5, amended, at a car of finite numbers: the line has fifteen tokens. *)
Lemma car_spec_round_trip_witness :
  let encoded := line " 1.000000 0.000000 1.000000 0.000000 1.000000 0.000000 0.000000 1.000000 0.000000 1.000000 0.000000 1.000000 0.000000 1.000000 0.000000" in
  validated one shape shape wheel wheel /\
  _car_spec one shape shape wheel wheel = Ok encoded /\
  List.length (split_ws encoded) = 15%nat.
Proof.
  intros encoded.
  assert (Hv : validated one shape shape wheel wheel)
    by (repeat split; vm_compute; reflexivity).
  assert (He : _car_spec one shape shape wheel wheel = Ok encoded)
    by (vm_compute; reflexivity).
  destruct (car_spec_round_trip one shape shape wheel wheel encoded Hv He)
    as (lu & ll & la & lb & xs & _ & _ & _ & _ & _ & _ & Hlen & _).
  exact (conj Hv (conj He Hlen)).
Defined.

(** C6 at a run: the simulator is restarted while its worker ignores the end
    of its input, so the worker is killed after the grace period and a new
    one takes its place. *)
Lemma restart_replaces_worker_witness :
  let s := started stubborn (healthy []) in
  let s' := snd (_restart s) in
  reachable s /\
  _restart s = (Ok tt, s') /\
  alive (trace s') = [n_popen s] /\
  never_two_alive (trace s') = true.
Proof.
  intros s s'.
  assert (Hr : reachable s) by apply reach_import.
  assert (He : _restart s = (Ok tt, s')) by (vm_compute; reflexivity).
  destruct (restart_replaces_worker s s' Hr He)
    as (v & sc & Ht & _ & _ & _ & _ & _ & Ha & Hn).
  exact (conj Hr (conj He (conj Ha Hn))).
Defined.

(** A hundred (and one) copies of a car. *)
Definition cars_of (n : nat) : pyval := PyList (repeat car n).

(** C7 at runs: races of 0, 101 and 100 cars. *)
Lemma race_validation_boundary_witness :
  let s := started (healthy []) dead in
  (exists msg, race (cars_of 0) s = (Raise (AssertionError msg), s)) /\
  (exists msg, race (cars_of 101) s = (Raise (AssertionError msg), s)) /\
  _check_cars (cars_of 100) = Ok tt /\
  (exists p ok, _worker s = Some p /\
                extends (EvWrite (p_pid p) "RACE 100" ok :: trace s)
                        (snd (race (cars_of 100) s))).
Proof.
  intros s.
  destruct (race_validation_boundary (cars_of 0) (repeat car 0) s eq_refl)
    as (H0 & _ & _).
  destruct (race_validation_boundary (cars_of 101) (repeat car 101) s eq_refl)
    as (_ & H101 & _).
  destruct (race_validation_boundary (cars_of 100) (repeat car 100) s eq_refl)
    as (_ & _ & H100).
  assert (Hw : exists p, _worker s = Some p /\ p_stdin_closed p = false).
  { eexists. split; vm_compute; reflexivity. }
  destruct Hw as (p & Hw & Hc).
  assert (Hall : check_each_car 0 (repeat car 100) = Ok tt)
    by (vm_compute; reflexivity).
  destruct (H100 (repeat_length car 100) Hall p Hw Hc) as [Hcheck [ok Hext]].
  split; [exact (H0 eq_refl)|].
  split; [exact (H101 (repeat_length car 101))|].
  split; [exact Hcheck|].
  exists p, ok. exact (conj Hw Hext).
Defined.

(** C8 as stated fails in both directions: a validated car with a NaN and an
    infinity is written with [nan] and [inf] in its line, and a state line
    in scientific notation with a NaN and an infinity is accepted. *)
Lemma codec_numbers_counterexample :
  validated nan shape shape wheel (PyList [inf; zero]) /\
  _car_spec nan shape shape wheel (PyList [inf; zero])
  = Ok (line " nan 0.000000 1.000000 0.000000 1.000000 0.000000 0.000000 1.000000 0.000000 1.000000 0.000000 1.000000 0.000000 inf 0.000000") /\
  fst (Simulator.simulate one shape shape wheel wheel
         (started (healthy [line "1"; line "1e5 nan -inf"]) dead))
  = Ok (RMatrix [[S754_finite false 6871947673600000 (-36);
                  S754_nan; S754_infinity true]]).
Proof.
  split; [repeat split; vm_compute; reflexivity|].
  split; vm_compute; reflexivity.
Qed.

(** C8, amended, at values: one half is written in fixed notation, and an
    infinity is written and read back as itself. *)
Lemma codec_numbers_witness :
  is_finite (S754_finite false 1 (-1)) = true /\
  is_fixed_point (format_f (S754_finite false 1 (-1))) = true /\
  is_finite (S754_infinity false) = false /\
  np_double (format_f (S754_infinity false)) = Some (S754_infinity false).
Proof.
  destruct codec_numbers as (_ & Hfix & _ & _ & Hacc & _).
  pose proof (Hfix (S754_finite false 1 (-1)) eq_refl) as H1.
  destruct (Hacc (S754_infinity false)) as (y & Hy & Heq).
  rewrite (Heq eq_refl) in Hy.
  exact (conj eq_refl (conj H1 (conj eq_refl Hy))).
Defined.

(** C9 at a run: three shutdowns in a row, and an explicit shutdown followed
    by the exit hook, on a worker that has to be killed. *)
Lemma shutdown_repeatable_witness :
  let s := started stubborn dead in
  _worker s <> None /\
  fst (run_hooks 3 s) = Ok (repeat (Ok tt) 3) /\
  fst (bind _shutdown (fun _ => interpreter_exit) s)
  = Ok (repeat (Ok tt) (hooks s)).
Proof.
  intros s.
  assert (Hw : _worker s <> None) by (vm_compute; discriminate).
  destruct (shutdown_repeatable s Hw) as [Hn Hx].
  exact (conj Hw (conj (Hn 3%nat) Hx)).
Defined.

(** C10 at runs: a launch that fails, and a [new_track] answered with
    something that is neither [DONE] nor an error line. *)
Lemma launch_and_track_failure_same_class_witness :
  let w := {| env_entropy := fun _ => 0%Z; env_popen := fun _ => None |} in
  let e0 := SimulatorError
              "There was an unexpected error starting the simulator ☹" in
  let raw := line "what?" in
  let s := started (healthy [raw]) dead in
  let s1 := snd (request OpNewTrack s) in
  let s2 := snd (stdout_readline s1) in
  import_module w = (Raise e0, snd (import_module w)) /\
  class_of e0 = CSimulatorError /\
  request OpNewTrack s = (Ok tt, s1) /\
  stdout_readline s1 = (Ok raw, s2) /\
  rstrip raw <> "DONE" /\
  startswith "ERR " (rstrip raw) = false /\
  (exists e, new_track s = (Raise e, s2) /\ class_of e = CSimulatorError).
Proof.
  intros w e0 raw s s1 s2.
  destruct launch_and_track_failure_same_class as (_ & Hi & Ht & _).
  assert (H0 : import_module w = (Raise e0, snd (import_module w)))
    by (vm_compute; reflexivity).
  assert (H1 : request OpNewTrack s = (Ok tt, s1)) by (vm_compute; reflexivity).
  assert (H2 : stdout_readline s1 = (Ok raw, s2)) by (vm_compute; reflexivity).
  assert (H3 : rstrip raw <> "DONE") by (vm_compute; discriminate).
  assert (H4 : startswith "ERR " (rstrip raw) = false)
    by (vm_compute; reflexivity).
  exact (conj H0 (conj (Hi w e0 _ H0)
           (conj H1 (conj H2 (conj H3 (conj H4 (Ht s s1 s2 raw H1 H2 H3 H4))))))).
Defined.

(* ================================================================== *)
(** * Further properties: validation *)
(* ================================================================== *)

Lemma check_entries_accepts (label : string) (idx : nat) (l : list pyval) :
  forallb is_num l = true -> check_entries label idx l = Ok tt.
Proof.
  revert idx. induction l as [|v l IH]; intros idx H; [reflexivity|].
  simpl in H. apply andb_prop in H as [Hv Hl].
  simpl. unfold _check_num. rewrite Hv. simpl. now apply IH.
Qed.

Lemma check_entries_assertion (label : string) (idx : nat) (l : list pyval)
      (e : exn) :
  check_entries label idx l = Raise e -> class_of e = CAssertionError.
Proof.
  revert idx. induction l as [|v l IH]; intros idx; simpl; [discriminate|].
  unfold _check_num. destruct (is_num v); simpl.
  - apply IH.
  - intros H. now injection H as <-.
Qed.

Lemma has_len_items (v : pyval) : has_len v = true -> exists l, items v = Some l.
Proof. destruct v; simpl; try discriminate; intros _; now eexists. Qed.

Lemma check_nums_assertion (label : string) (n : nat) (v : pyval) (e : exn) :
  _check_nums label n v = Raise e -> class_of e = CAssertionError.
Proof.
  unfold _check_nums, py_len. destruct (has_len v) eqn:Hl; simpl.
  - destruct (has_len_items v Hl) as [l ->]. simpl.
    destruct (Nat.eqb (List.length l) n); simpl.
    + apply check_entries_assertion.
    + intros H. now injection H as <-.
  - intros H. now injection H as <-.
Qed.

(** A sequence of exactly [n] numbers. *)
Definition numbers (n : nat) (v : pyval) : Prop :=
  exists l, items v = Some l /\ List.length l = n /\ forallb is_num l = true.

Lemma check_nums_accepts (label : string) (n : nat) (v : pyval) :
  numbers n v -> _check_nums label n v = Ok tt.
Proof.
  intros (l & Hi & Hn & Hall).
  destruct (items_has_len _ _ Hi) as [Hl Hp].
  unfold _check_nums. rewrite Hl, Hp, Hi. simpl.
  rewrite Hn, Nat.eqb_refl. simpl.
  now apply check_entries_accepts.
Qed.



(** The message of [_check_nums] names the first entry that is not a
    number. *)
Theorem check_nums_reports_first_offender (label : string) (v : pyval)
        (before : list pyval) (bad : pyval) (rest : list pyval) :
  items v = Some (before ++ bad :: rest)%list ->
  forallb is_num before = true ->
  is_num bad = false ->
  _check_nums label (List.length (before ++ bad :: rest)%list) v
  = Raise (AssertionError
             ((label ++ "[" ++ format_d (Z.of_nat (List.length before)) ++ "]")
                ++ " should be a number")).
Proof.
  intros Hi Hb Hbad. destruct (items_has_len _ _ Hi) as [Hl Hp].
  unfold _check_nums. rewrite Hl, Hp, Hi. cbn [negb rbind].
  rewrite Nat.eqb_refl. cbn [negb].
  assert (K : forall idx,
             check_entries label idx (before ++ bad :: rest)%list
             = Raise (AssertionError
                        ((label ++ "["
                                ++ format_d (Z.of_nat (idx + List.length before))
                                ++ "]") ++ " should be a number"))).
  { clear Hi Hl Hp. induction before as [|x before IH]; intros idx.
    - simpl. unfold _check_num. rewrite Hbad. simpl.
      now rewrite Nat.add_0_r.
    - simpl in Hb. apply andb_prop in Hb as [Hx Hb'].
      simpl. unfold _check_num at 1. rewrite Hx. simpl.
      rewrite (IH Hb' (S idx)).
      now replace (S idx + List.length before)%nat
        with (idx + S (List.length before))%nat by lia. }
  exact (K 0%nat).
Qed.

Lemma check_nums_reports_first_offender_witness :
  _check_nums "upper_shape" 5
              (PyList [PyInt 1; PyFloat (S754_zero false); PyBool true;
                       PyNone; PyInt 2])
  = Raise (AssertionError "upper_shape[2] should be a number").
Proof.
  exact (check_nums_reports_first_offender
           "upper_shape"
           (PyList [PyInt 1; PyFloat (S754_zero false); PyBool true;
                    PyNone; PyInt 2])
           [PyInt 1; PyFloat (S754_zero false)] (PyBool true)
           [PyNone; PyInt 2] eq_refl eq_refl eq_refl).
Defined.





(** ** The cars of a race *)

(** A car as [_check_cars] wants it: five fields, a number and four
    sequences of numbers of lengths 5, 5, 2 and 2. *)
Definition car_valid (car : pyval) : Prop :=
  exists fw us ls lw rw,
    unpack5 car = Ok (fw, us, ls, lw, rw) /\
    is_num fw = true /\
    numbers 5 us /\ numbers 5 ls /\ numbers 2 lw /\ numbers 2 rw.

Lemma numbers_check (label : string) (n : nat) (v : pyval) :
  numbers n v <-> _check_nums label n v = Ok tt.
Proof.
  split; [apply check_nums_accepts | apply check_nums_items].
Qed.

Lemma check_each_car_accepts (idx : nat) (l : list pyval) :
  check_each_car idx l = Ok tt <-> Forall car_valid l.
Proof.
  revert idx. induction l as [|car l IH]; intros idx.
  - split; [constructor | reflexivity].
  - cbn [check_each_car]. split.
    + destruct (unpack5 car) as [[[[[fw us] ls] lw] rw]|] eqn:Hu;
        [|discriminate].
      cbn [rbind]. unfold _check_num.
      destruct (is_num fw) eqn:Hfw; [|discriminate]. cbn [rbind].
      destruct (_check_nums _ 5 us) as [[]|] eqn:H1; [|discriminate].
      cbn [rbind].
      destruct (_check_nums _ 5 ls) as [[]|] eqn:H2; [|discriminate].
      cbn [rbind].
      destruct (_check_nums _ 2 lw) as [[]|] eqn:H3; [|discriminate].
      cbn [rbind].
      destruct (_check_nums _ 2 rw) as [[]|] eqn:H4; [|discriminate].
      cbn [rbind]. intros H. constructor; [|now apply (IH (S idx))].
      exists fw, us, ls, lw, rw.
      repeat split; try assumption; eapply numbers_check; eassumption.
    + intros H. inversion_clear H as [|? ? Hc Hl].
      destruct Hc as (fw & us & ls & lw & rw & Hu & Hfw & H1 & H2 & H3 & H4).
      rewrite Hu. cbn [rbind]. unfold _check_num. rewrite Hfw. cbn [rbind].
      rewrite (proj1 (numbers_check _ _ _) H1). cbn [rbind].
      rewrite (proj1 (numbers_check _ _ _) H2). cbn [rbind].
      rewrite (proj1 (numbers_check _ _ _) H3). cbn [rbind].
      rewrite (proj1 (numbers_check _ _ _) H4). cbn [rbind].
      now apply IH.
Qed.

Lemma check_cars_ok_inv (cars : pyval) :
  _check_cars cars = Ok tt ->
  exists l, items cars = Some l /\
            (1 <= List.length l <= 100)%nat /\ Forall car_valid l.
Proof.
  intros H.
  assert (Hl : has_len cars = true).
  { unfold _check_cars in H. now destruct (has_len cars). }
  destruct (has_len_items _ Hl) as [l Hi].
  exists l. split; [exact Hi|].
  rewrite (check_cars_count _ _ Hi) in H.
  destruct (Nat.eqb_spec (List.length l) 0); [discriminate|].
  destruct (Nat.leb_spec (List.length l) 100); [|discriminate].
  split; [lia|]. now apply (check_each_car_accepts 0).
Qed.

(** [_check_cars] passes exactly the sequences of 1 to 100 valid cars.  The
    count is checked first: an empty or an over-long sequence is refused
    with an assertion failure whatever it holds. *)
Theorem check_cars_accepts_exactly (cars : pyval) :
  (_check_cars cars = Ok tt <->
   exists l, items cars = Some l /\
             (1 <= List.length l <= 100)%nat /\ Forall car_valid l) /\
  (forall l, items cars = Some l ->
             (List.length l = 0 \/ 100 < List.length l)%nat ->
             exists msg, _check_cars cars = Raise (AssertionError msg)).
Proof.
  split; [split|].
  - apply check_cars_ok_inv.
  - intros (l & Hi & Hn & Hall). rewrite (check_cars_count _ _ Hi).
    destruct (Nat.eqb_spec (List.length l) 0); [lia|].
    destruct (Nat.leb_spec (List.length l) 100); [|lia].
    now apply check_each_car_accepts.
  - intros l Hi Hn. rewrite (check_cars_count _ _ Hi).
    destruct (Nat.eqb_spec (List.length l) 0); [now eexists|].
    destruct (Nat.leb_spec (List.length l) 100); [lia|now eexists].
Qed.

Lemma check_cars_accepts_exactly_witness :
  (exists l, items (PyList [car]) = Some l /\
             (1 <= List.length l <= 100)%nat /\ Forall car_valid l) /\
  _check_cars (PyList [car]) = Ok tt.
Proof.
  assert (Hn5 : numbers 5 shape) by (eexists; repeat split).
  assert (Hn2 : numbers 2 wheel) by (eexists; repeat split).
  assert (Hc : car_valid car).
  { exists one, shape, shape, wheel, wheel. repeat split; assumption. }
  assert (H : exists l, items (PyList [car]) = Some l /\
                        (1 <= List.length l <= 100)%nat /\
                        Forall car_valid l).
  { exists [car]. repeat split; [simpl; lia | simpl; lia | now constructor]. }
  destruct (check_cars_accepts_exactly (PyList [car])) as [[_ Hok] _].
  exact (conj H (Hok H)).
Defined.

(* ================================================================== *)
(** * Further properties: what goes over the pipe *)
(* ================================================================== *)

Lemma stdin_write_ok (text : string) (s s1 : state) :
  stdin_write text s = (Ok tt, s1) ->
  exists p, _worker s = Some p /\ p_stdin_closed p = false /\
            sc_broken (p_script p) (p_nio p) = false /\
            s1 = log (EvWrite (p_pid p) text true)
                     (set_worker (Some (with_nio p)) s).
Proof.
  unfold stdin_write, bind, worker.
  destruct (_worker s) as [p|]; [|discriminate].
  destruct (p_stdin_closed p) eqn:Hc; [discriminate|].
  destruct (sc_broken (p_script p) (p_nio p)) eqn:Hb; [discriminate|].
  intros H. injection H as <-. now exists p.
Qed.

Lemma stdin_flush_ok (s s1 : state) :
  stdin_flush s = (Ok tt, s1) ->
  exists p, _worker s = Some p /\ p_stdin_closed p = false /\
            sc_broken (p_script p) (p_nio p) = false /\
            s1 = log (EvFlush (p_pid p) true)
                     (set_worker (Some (with_nio p)) s).
Proof.
  unfold stdin_flush, bind, worker.
  destruct (_worker s) as [p|]; [|discriminate].
  destruct (p_stdin_closed p) eqn:Hc; [discriminate|].
  destruct (sc_broken (p_script p) (p_nio p)) eqn:Hb; [discriminate|].
  intros H. injection H as <-. now exists p.
Qed.

Lemma stdout_readline_ok (s s1 : state) (raw : string) :
  stdout_readline s = (Ok raw, s1) ->
  exists p, _worker s = Some p /\ p_stdout_closed p = false /\
            raw = hd "" (p_out p) /\
            s1 = log (EvReadline (p_pid p) raw)
                     (set_worker (Some (with_out (tl (p_out p)) p)) s).
Proof.
  unfold stdout_readline, bind, worker.
  destruct (_worker s) as [p|]; [|discriminate].
  destruct (p_stdout_closed p) eqn:Hc; [discriminate|].
  destruct (p_out p) as [|l r] eqn:Ho; simpl;
    intros H; injection H as <- <-; exists p; rewrite Ho; now repeat split.
Qed.

(** The line one car of a race contributes. *)
Definition car_line (car : pyval) : result string :=
  '(frame_width, upper_shape, lower_shape, left_wheel, right_wheel)
    <-? unpack5 car ;;
  _car_spec frame_width upper_shape lower_shape left_wheel right_wheel.

Definition write_event (pid : nat) (text : string) : event :=
  EvWrite pid text true.

Lemma write_cars_trace (l : list pyval) (s s1 : state) (p : proc) :
  write_cars l s = (Ok tt, s1) ->
  _worker s = Some p ->
  exists specs p1,
    Forall2 (fun car text => car_line car = Ok text) l specs /\
    _worker s1 = Some p1 /\ p_pid p1 = p_pid p /\
    trace s1 = (rev (map (write_event (p_pid p)) specs) ++ trace s)%list.
Proof.
  revert s p. induction l as [|car l IH]; intros s p H Hw.
  - simpl in H. injection H as <-. exists [], p. now repeat split.
  - cbn [write_cars] in H. unfold bind at 1, lift at 1 in H.
    destruct (unpack5 car) as [[[[[fw us] ls] lw] rw]|] eqn:Hu;
      [|discriminate H].
    unfold bind at 1, lift at 1 in H.
    destruct (_car_spec fw us ls lw rw) as [spec|] eqn:Hs; [|discriminate H].
    unfold bind at 1 in H.
    destruct (stdin_write spec s) as [[[]|x] s0] eqn:Hwr; [|discriminate H].
    destruct (stdin_write_ok _ _ _ Hwr) as (q & Hq & _ & _ & ->).
    rewrite Hw in Hq. injection Hq as <-.
    destruct (IH _ (with_nio p) H eq_refl) as (specs & p1 & Hf & Hw1 & Hp & Ht).
    exists (spec :: specs), p1. repeat split.
    + constructor; [|exact Hf]. unfold car_line. rewrite Hu. exact Hs.
    + exact Hw1.
    + exact Hp.
    + rewrite Ht. cbn [map rev p_pid with_nio trace log set_worker].
      now rewrite <- app_assoc.
Qed.

(** A race request that goes through puts on the worker's stdin, in this
    order and with nothing in between: [RACE <n>] with no newline, then the
    line of each car in the order of the list, and then flushes once. *)
Theorem send_race_wire (cars : pyval) (s s1 : state) :
  _send_race cars s = (Ok tt, s1) ->
  exists p l specs,
    _worker s = Some p /\ items cars = Some l /\
    Forall2 (fun car text => car_line car = Ok text) l specs /\
    trace s1
    = (EvFlush (p_pid p) true
         :: rev (map (write_event (p_pid p)) specs)
         ++ write_event (p_pid p)
              ("RACE " ++ format_d (Z.of_nat (List.length l)))
         :: trace s)%list.
Proof.
  unfold _send_race. unfold bind at 1, worker at 1.
  destruct (_worker s) as [p|] eqn:Hw; [|discriminate].
  unfold bind at 1, lift at 1, py_len.
  destruct (items cars) as [l|] eqn:Hi; [|discriminate].
  unfold bind at 1.
  destruct (stdin_write _ s) as [[[]|x] s0] eqn:Hwr; [|discriminate].
  destruct (stdin_write_ok _ _ _ Hwr) as (q & Hq & _ & _ & ->).
  rewrite Hw in Hq. injection Hq as <-.
  unfold bind at 1.
  destruct (write_cars l _) as [[[]|x] s2] eqn:Hcars; [|discriminate].
  destruct (write_cars_trace _ _ _ (with_nio p) Hcars eq_refl)
    as (specs & p1 & Hf & Hw1 & Hp & Ht).
  intros Hfl. destruct (stdin_flush_ok _ _ Hfl) as (q & Hq & _ & _ & ->).
  rewrite Hw1 in Hq. injection Hq as <-.
  exists p, l, specs. repeat split; try assumption.
  cbn [trace log set_worker]. rewrite Ht, Hp. reflexivity.
Qed.

Lemma send_race_wire_witness :
  let s := started (healthy []) dead in
  let text := " 1.000000 0.000000 1.000000 0.000000 1.000000 0.000000 0.000000 1.000000 0.000000 1.000000 0.000000 1.000000 0.000000 1.000000 0.000000" ++ newline in
  _send_race (PyList [car; car]) s
  = (Ok tt, snd (_send_race (PyList [car; car]) s)) /\
  trace (snd (_send_race (PyList [car; car]) s))
  = (EvFlush 0 true :: write_event 0 text :: write_event 0 text
       :: write_event 0 "RACE 2" :: trace s)%list.
Proof.
  intros s text.
  assert (H : _send_race (PyList [car; car]) s
              = (Ok tt, snd (_send_race (PyList [car; car]) s)))
    by (vm_compute; reflexivity).
  split; [exact H|].
  destruct (send_race_wire _ _ _ H) as (p & l & specs & Hw & Hi & Hf & Ht).
  rewrite Ht. vm_compute in Hw. injection Hw as <-.
  injection Hi as <-.
  inversion Hf as [|? t1 ? l1 H1 Hf1]; subst.
  inversion Hf1 as [|? t2 ? l2 H2 Hf2]; subst.
  inversion Hf2; subst.
  vm_compute in H1. injection H1 as <-.
  vm_compute in H2. injection H2 as <-.
  reflexivity.
Defined.

(** A [simulate] request that goes through has validated the car, and puts
    on the worker's stdin exactly one write, [SIM] followed by the car's
    line, and one flush. *)
Theorem simulate_request_wire (fw us ls lw rw : pyval) (s s1 : state) :
  request (OpSimulate fw us ls lw rw) s = (Ok tt, s1) ->
  exists p spec,
    validated fw us ls lw rw /\
    _car_spec fw us ls lw rw = Ok spec /\
    _worker s = Some p /\
    trace s1
    = (EvFlush (p_pid p) true :: write_event (p_pid p) ("SIM" ++ spec)
         :: trace s)%list.
Proof.
  unfold request. cbv beta iota delta [bind lift].
  unfold _check_num. destruct (is_num fw) eqn:Hfw; [|discriminate].
  destruct (_check_nums "upper_shape" 5 us) as [[]|] eqn:H1; [|discriminate].
  destruct (_check_nums "lower_shape" 5 ls) as [[]|] eqn:H2; [|discriminate].
  destruct (_check_nums "left_wheel" 2 lw) as [[]|] eqn:H3; [|discriminate].
  destruct (_check_nums "right_wheel" 2 rw) as [[]|] eqn:H4; [|discriminate].
  destruct (_car_spec fw us ls lw rw) as [spec|] eqn:Hs; [|discriminate].
  unfold _send, bind.
  destruct (stdin_write _ s) as [[[]|x] s0] eqn:Hwr; [|discriminate].
  destruct (stdin_write_ok _ _ _ Hwr) as (p & Hp & _ & _ & ->).
  intros Hfl. destruct (stdin_flush_ok _ _ Hfl) as (q & Hq & _ & _ & ->).
  injection Hq as <-.
  exists p, spec. now repeat split.
Qed.

Lemma simulate_request_wire_witness :
  let s := started (healthy []) dead in
  let s1 := snd (request (OpSimulate one shape shape wheel wheel) s) in
  request (OpSimulate one shape shape wheel wheel) s = (Ok tt, s1) /\
  exists p spec,
    _car_spec one shape shape wheel wheel = Ok spec /\
    _worker s = Some p /\
    trace s1
    = (EvFlush (p_pid p) true :: write_event (p_pid p) ("SIM" ++ spec)
         :: trace s)%list.
Proof.
  intros s s1.
  assert (H : request (OpSimulate one shape shape wheel wheel) s = (Ok tt, s1))
    by (vm_compute; reflexivity).
  split; [exact H|].
  destruct (simulate_request_wire _ _ _ _ _ _ _ H)
    as (p & spec & _ & Hs & Hw & Ht).
  exists p, spec. exact (conj Hs (conj Hw Ht)).
Defined.

(* ================================================================== *)
(** * Further properties: reading the reply *)
(* ================================================================== *)

(** What one reply line of [width] numbers decodes to. *)
Definition decode_line (width : nat) (raw : string) : result (list double) :=
  values <-? parse_tokens (split " " (rstrip raw)) ;;
  assign_row width values.

Lemma parse_tokens_empty_line : parse_tokens (split " " (rstrip "")) = Raise ValueError.
Proof. reflexivity. Qed.

(** The rows a reader returns are the decodings of the next [n] lines of
    the worker's output, in the order they were sent; exactly those [n]
    lines are consumed, so what follows them is left for the next request,
    and the output did hold [n] lines. *)
Theorem recv_rows_framing (width n : nat) (s s' : state) (p : proc)
        (rows : list (list double)) :
  _worker s = Some p ->
  recv_rows width n s = (Ok rows, s') ->
  (n <= List.length (p_out p))%nat /\
  Forall2 (fun raw row => decode_line width raw = Ok row)
          (firstn n (p_out p)) rows /\
  exists p', _worker s' = Some p' /\ p_pid p' = p_pid p /\
             p_out p' = skipn n (p_out p).
Proof.
  revert s s' p rows. induction n as [|n IH]; intros s s' p rows Hw H.
  - simpl in H. injection H as <- <-.
    repeat split; [lia | constructor | now exists p].
  - cbn [recv_rows] in H. unfold bind at 1 in H.
    destruct (stdout_readline s) as [[raw|x] s0] eqn:Hr; [|discriminate H].
    destruct (stdout_readline_ok _ _ _ Hr) as (q & Hq & _ & Hraw & ->).
    rewrite Hw in Hq. injection Hq as <-.
    unfold bind at 1, lift at 1 in H.
    destruct (parse_tokens _) as [values|] eqn:Hv; [|discriminate H].
    unfold bind at 1, lift at 1 in H.
    destruct (assign_row width values) as [row|] eqn:Ha; [|discriminate H].
    unfold bind at 1 in H.
    destruct (recv_rows width n _) as [[rest|x] s2] eqn:Hrest; [|discriminate H].
    unfold ret in H. injection H as <- <-.
    assert (Hw0 : _worker (log (EvReadline (p_pid p) raw)
                                (set_worker (Some (with_out (tl (p_out p)) p)) s))
                  = Some (with_out (tl (p_out p)) p)) by reflexivity.
    destruct (IH _ _ _ rest Hw0 Hrest)
      as (Hlen & Hf & p' & Hw' & Hpid & Hout).
    destruct (p_out p) as [|l0 r0] eqn:Ho.
    + simpl in Hraw. subst raw. rewrite parse_tokens_empty_line in Hv.
      discriminate Hv.
    + simpl in Hraw. subst raw. simpl in Hlen, Hf, Hout.
      repeat split.
      * simpl. lia.
      * simpl. constructor; [|exact Hf]. unfold decode_line. now rewrite Hv.
      * exists p'. now repeat split.
Qed.

Lemma recv_rows_framing_witness :
  let s := started (healthy [line "1 2"; line "3"; line "next reply"]) dead in
  exists p rows,
    _worker s = Some p /\
    recv_rows 2 2 s = (Ok rows, snd (recv_rows 2 2 s)) /\
    (exists p', _worker (snd (recv_rows 2 2 s)) = Some p' /\
                p_out p' = skipn 2 (p_out p)).
Proof.
  intros s.
  assert (Hw : exists p, _worker s = Some p) by (eexists; vm_compute; reflexivity).
  destruct Hw as [p Hw].
  assert (Hr : exists rows, recv_rows 2 2 s = (Ok rows, snd (recv_rows 2 2 s)))
    by (eexists; vm_compute; reflexivity).
  destruct Hr as [rows Hr].
  destruct (recv_rows_framing 2 2 s _ p rows Hw Hr)
    as (_ & _ & p' & Hw' & _ & Hout).
  exists p, rows. split; [exact Hw|]. split; [exact Hr|].
  exists p'. exact (conj Hw' Hout).
Defined.

(** A decorated method that returns did so in one of its attempts. *)
Lemma decorated_ok_attempt {A} (m : M A) (s s' : state) (a : A) :
  restart_on_broken_pipe m s = (Ok a, s') ->
  exists sa, m sa = (Ok a, s') /\
             (sa = s \/
              exists s0, m s = (Raise BrokenPipeError, s0) /\
                         _restart s0 = (Ok tt, sa)).
Proof.
  unfold restart_on_broken_pipe, try_except.
  destruct (m s) as [[b|e] s0] eqn:Hm.
  - intros H. exists s. split; [now rewrite Hm|now left].
  - destruct (is_BrokenPipeError e) eqn:He; [|discriminate].
    destruct e; try discriminate He.
    unfold bind. destruct (_restart s0) as [[[]|x] s1] eqn:Hr; [|discriminate].
    intros H. exists s1. split; [exact H|]. right. now exists s0.
Qed.

Lemma race_body_result (cars : pyval) (s s' : state) (v : retval) :
  Simulator.race_body cars s = (Ok v, s') ->
  exists l rows,
    items cars = Some l /\ (1 <= List.length l <= 100)%nat /\
    Forall car_valid l /\
    v = RMatrix rows /\ List.length rows = List.length l /\
    Forall (fun r => List.length r = 2%nat) rows.
Proof.
  unfold Simulator.race_body. unfold bind at 1, lift at 1.
  destruct (_check_cars cars) as [[]|] eqn:Hc; [|discriminate].
  destruct (check_cars_ok_inv cars Hc)
    as (l & Hi & Hn & Hall).
  unfold bind at 1. destruct (_send_race cars s) as [[[]|x] s1]; [|discriminate].
  unfold bind at 1, lift at 1, py_len. rewrite Hi.
  unfold _recv_scores. unfold bind at 1.
  destruct (_recv s1) as [[head|x] s2]; [|discriminate].
  unfold bind at 1, lift at 1.
  destruct (parse_tokens _) as [values|]; [|discriminate].
  destruct (List.length l) as [|n] eqn:Hlen; [lia|].
  unfold bind at 1, lift at 1.
  destruct (assign_row 2 values) as [row|] eqn:Ha; [|discriminate].
  unfold bind at 1.
  destruct (recv_rows 2 n s2) as [[rest|x] s3] eqn:Hrest; [|discriminate].
  unfold ret. intros H. injection H as <- _.
  destruct (recv_rows_shape _ _ _ _ _ Hrest) as [Hl Hf].
  exists l, (row :: rest). rewrite Hlen. repeat split; try assumption; try lia.
  - simpl. now rewrite Hl.
  - constructor; [now apply assign_row_width in Ha | exact Hf].
Qed.

(** A [race] that returns gives one row of two numbers per car: the cars
    were between 1 and 100 valid cars. *)
Theorem race_result_shape (cars : pyval) (s s' : state) (v : retval) :
  race cars s = (Ok v, s') ->
  exists l rows,
    items cars = Some l /\ (1 <= List.length l <= 100)%nat /\
    Forall car_valid l /\
    v = RMatrix rows /\ List.length rows = List.length l /\
    Forall (fun r => List.length r = 2%nat) rows.
Proof.
  unfold race, Simulator.race. intros H.
  destruct (decorated_ok_attempt _ _ _ _ H) as (sa & Hb & _).
  exact (race_body_result cars sa s' v Hb).
Qed.

Lemma race_result_shape_witness :
  let s := started (healthy [line "10.5 3"; line "7 2.25"]) dead in
  exists v, race (PyList [car; car]) s = (Ok v, snd (race (PyList [car; car]) s)) /\
            exists rows, v = RMatrix rows /\ List.length rows = 2%nat.
Proof.
  intros s.
  assert (H : exists v, race (PyList [car; car]) s
                        = (Ok v, snd (race (PyList [car; car]) s)))
    by (eexists; vm_compute; reflexivity).
  destruct H as [v H]. exists v. split; [exact H|].
  destruct (race_result_shape _ _ _ _ H)
    as (l & rows & Hi & _ & _ & Hv & Hl & _).
  injection Hi as <-. exists rows. exact (conj Hv Hl).
Defined.

(** The method [Simulator.simulate], when it returns, returns a matrix of
    three columns whose number of rows is the count announced on the first
    reply line of the attempt that succeeded (the first one, or the one made
    after a restart). *)
Theorem simulate_method_result (fw us ls lw rw : pyval) (s s' : state)
        (v : retval) :
  Simulator.simulate fw us ls lw rw s = (Ok v, s') ->
  exists sa s1 raw s2 N rows,
    (sa = s \/
     exists s0, Simulator.simulate_body fw us ls lw rw s
                = (Raise BrokenPipeError, s0) /\
                _restart s0 = (Ok tt, sa)) /\
    request (OpSimulate fw us ls lw rw) sa = (Ok tt, s1) /\
    stdout_readline s1 = (Ok raw, s2) /\
    py_int (rstrip raw) = Ok N /\ (0 <= N)%Z /\
    v = RMatrix rows /\
    List.length rows = Z.to_nat N /\
    Forall (fun r => List.length r = 3%nat) rows.
Proof.
  unfold Simulator.simulate. intros H.
  destruct (decorated_ok_attempt _ _ _ _ H) as (sa & Hb & Hsa).
  destruct (simulate_body_trace _ _ _ _ _ _ _ _ Hb)
    as (s1 & raw & s2 & N & rows & Hq & Hr & HN & Hpos & Hv & Hl & Hf).
  exists sa, s1, raw, s2, N, rows. repeat split; assumption.
Qed.

Lemma simulate_method_result_witness :
  let s := started (healthy [line "2"; line "1 2 3"; line "4"]) dead in
  exists v, Simulator.simulate one shape shape wheel wheel s
            = (Ok v, snd (Simulator.simulate one shape shape wheel wheel s)) /\
            exists rows, v = RMatrix rows /\
                         Forall (fun r => List.length r = 3%nat) rows.
Proof.
  intros s.
  assert (H : exists v,
             Simulator.simulate one shape shape wheel wheel s
             = (Ok v, snd (Simulator.simulate one shape shape wheel wheel s)))
    by (eexists; vm_compute; reflexivity).
  destruct H as [v H]. exists v. split; [exact H|].
  destruct (simulate_method_result _ _ _ _ _ _ _ _ H)
    as (sa & s1 & raw & s2 & N & rows & _ & _ & _ & _ & _ & Hv & _ & Hf).
  exists rows. exact (conj Hv Hf).
Defined.

(** The three outcomes of [new_track] once the request is out: the call
    returns exactly when the reply line, stripped of trailing whitespace, is
    [DONE]; otherwise it raises, and the state is the one right after that
    line was read. *)
Theorem new_track_returns_iff_done (s s1 s2 : state) (raw : string) :
  request OpNewTrack s = (Ok tt, s1) ->
  stdout_readline s1 = (Ok raw, s2) ->
  (rstrip raw = "DONE" -> new_track s = (Ok RNone, s2)) /\
  (rstrip raw <> "DONE" -> exists e, new_track s = (Raise e, s2) /\
                                     e <> BrokenPipeError).
Proof.
  intros Hq Hr. split.
  - intros Hd.
    assert (Hb : body OpNewTrack s = (Ok RNone, s2)).
    { rewrite (body_request_reply _ s s1 Hq).
      rewrite (bind_ok _ _ _ _ _ (recv_plain_line _ _ _ Hr
                                    ltac:(now rewrite Hd))).
      simpl. now rewrite Hd. }
    exact (public_one_attempt OpNewTrack s s2 _ Hb ltac:(discriminate)).
  - intros Hd. destruct (startswith "ERR " (rstrip raw)) eqn:He.
    + exists (SimulationError (drop 4 (rstrip raw))). split; [|discriminate].
      exact (public_one_attempt OpNewTrack s s2 _
               (body_error_line OpNewTrack s s1 s2 raw Hq Hr He)
               ltac:(discriminate)).
    + exists (SimulatorError
                "the simulator was not able to generate a new track ☹").
      split; [|discriminate].
      exact (public_one_attempt OpNewTrack s s2 _
               (body_unexpected_track_reply s s1 s2 raw Hq Hr Hd He)
               ltac:(discriminate)).
Qed.

Lemma new_track_returns_iff_done_witness :
  let raw := "DONE  " ++ newline in
  let s := started (healthy [raw]) dead in
  let s1 := snd (request OpNewTrack s) in
  let s2 := snd (stdout_readline s1) in
  request OpNewTrack s = (Ok tt, s1) /\
  stdout_readline s1 = (Ok raw, s2) /\
  rstrip raw = "DONE" /\
  new_track s = (Ok RNone, s2).
Proof.
  intros raw s s1 s2.
  assert (H1 : request OpNewTrack s = (Ok tt, s1)) by (vm_compute; reflexivity).
  assert (H2 : stdout_readline s1 = (Ok raw, s2)) by (vm_compute; reflexivity).
  assert (H3 : rstrip raw = "DONE") by (vm_compute; reflexivity).
  destruct (new_track_returns_iff_done s s1 s2 raw H1 H2) as [Hok _].
  exact (conj H1 (conj H2 (conj H3 (Hok H3)))).
Defined.

(** What each operation raises when the worker's output has ended. *)
Definition at_end_of_output (o : operation) : exn :=
  match o with
  | OpSimulate _ _ _ _ _ => ValueError
  | OpRace _ => ValueError
  | OpNewTrack =>
      SimulatorError "the simulator was not able to generate a new track ☹"
  end.

(** When the worker's output has ended before the first reply line, each
    operation raises ([ValueError] from [int('')] or [np.double('')] for
    [simulate] and [race], [SimulatorError] for [new_track]); an end of
    output is not a broken pipe, so no worker is launched and nothing is
    retried. *)
Theorem end_of_output_not_retried (o : operation) (s s1 : state) (p : proc) :
  request o s = (Ok tt, s1) ->
  _worker s1 = Some p ->
  p_stdout_closed p = false ->
  p_out p = [] ->
  exists s2, public o s = (Raise (at_end_of_output o), s2) /\
             n_popen s2 = n_popen s.
Proof.
  intros Hq Hw Hc Ho.
  assert (Hr : stdout_readline s1
               = (Ok "", log (EvReadline (p_pid p) "")
                             (set_worker (Some (with_out [] p)) s1))).
  { unfold stdout_readline, bind, worker. now rewrite Hw, Hc, Ho. }
  set (s2 := log (EvReadline (p_pid p) "")
                 (set_worker (Some (with_out [] p)) s1)) in *.
  exists s2.
  assert (Hb : body o s = (Raise (at_end_of_output o), s2)).
  { rewrite (body_request_reply o s s1 Hq).
    rewrite (bind_ok _ _ _ _ _ (recv_plain_line _ _ _ Hr eq_refl)).
    destruct o as [a b c d e|cars|]; simpl; try reflexivity.
    assert (Hn : exists n, py_len cars = Ok n).
    { simpl in Hq. apply lift_bind_ok in Hq as ([] & _ & Hq).
      exact (send_race_len _ _ _ Hq). }
    destruct Hn as [n Hn]. unfold bind, lift. now rewrite Hn. }
  split.
  - rewrite (public_one_attempt o s s2 _ Hb); [now destruct o|].
    destruct o; discriminate.
  - rewrite (readline_launches_nothing _ _ _ Hr).
    exact (request_launches_nothing _ _ _ _ Hq).
Qed.

Lemma end_of_output_not_retried_witness :
  let s := started (healthy []) (healthy [line "1"; line "1 2 3"]) in
  let o := OpSimulate one shape shape wheel wheel in
  let s1 := snd (request o s) in
  request o s = (Ok tt, s1) /\
  exists s2, public o s = (Raise ValueError, s2) /\ n_popen s2 = n_popen s.
Proof.
  intros s o s1.
  assert (H1 : request o s = (Ok tt, s1)) by (vm_compute; reflexivity).
  assert (Hw : exists p, _worker s1 = Some p /\ p_stdout_closed p = false /\
                         p_out p = []).
  { eexists. repeat split; vm_compute; reflexivity. }
  destruct Hw as (p & Hw & Hc & Ho).
  exact (conj H1 (end_of_output_not_retried o s s1 p H1 Hw Hc Ho)).
Defined.

(* ================================================================== *)
(** * Further properties: the life of the worker *)
(* ================================================================== *)

(** The state an import leaves, by whether the launch works. *)
Lemma import_module_cases (e : environment) :
  let v := (1025 + env_entropy e 0 mod (65535 - 1025 + 1))%Z in
  import_module e =
  match env_popen e 0 with
  | Some sc =>
      (Ok tt,
       {| _worker := Some (spawn 0 (carsim_args v) sc); port := Some v;
          n_rand := 1; n_popen := 1; hooks := 1;
          trace := [EvAtexit; EvSpawn 0 (carsim_args v);
                    EvRandint 1025 65535 v];
          env := e |})
  | None =>
      (Raise (SimulatorError
                "There was an unexpected error starting the simulator ☹"),
       {| _worker := None; port := Some v;
          n_rand := 1; n_popen := 1; hooks := 0;
          trace := [EvSpawnFailed (carsim_args v); EvRandint 1025 65535 v];
          env := e |})
  end.
Proof.
  cbv zeta.
  pose proof (restart_spec (set_worker None (initial e))) as Hr.
  cbv zeta in Hr. unfold before_spawn, drawn_port in Hr.
  cbn [set_worker initial _worker env n_rand n_popen tick_rand log set_port]
    in Hr.
  assert (Hi : import_module e
               = bind _restart (fun _ => atexit_register)
                      (set_worker None (initial e))) by reflexivity.
  rewrite Hi. unfold bind. rewrite Hr.
  destruct (env_popen e 0) as [sc|]; reflexivity.
Qed.

(** Importing the module either starts the first worker, on a port of
    [1025, 65535] that is also its command-line argument, and registers the
    exit hook once; or, when the worker cannot be launched, raises
    [SimulatorError] before the hook is registered, with no worker held and
    none alive. *)
Theorem import_outcomes (e : environment) :
  let v := (1025 + env_entropy e 0 mod (65535 - 1025 + 1))%Z in
  (1025 <= v <= 65535)%Z /\
  match env_popen e 0 with
  | Some sc =>
      exists s,
        import_module e = (Ok tt, s) /\
        port s = Some v /\
        _worker s = Some (spawn 0 (carsim_args v) sc) /\
        hooks s = 1%nat /\
        trace s = [EvAtexit; EvSpawn 0 (carsim_args v);
                   EvRandint 1025 65535 v] /\
        alive (trace s) = [0%nat]
  | None =>
      exists s msg,
        import_module e = (Raise (SimulatorError msg), s) /\
        _worker s = None /\ hooks s = 0%nat /\ alive (trace s) = []
  end.
Proof.
  cbv zeta. split.
  - pose proof (Z.mod_pos_bound (env_entropy e 0) (65535 - 1025 + 1)). lia.
  - pose proof (import_module_cases e) as H. cbv zeta in H.
    destruct (env_popen e 0) as [sc|].
    + eexists. split; [exact H|]. cbn [port _worker hooks trace alive without filter].
      repeat split.
    + eexists. eexists. split; [exact H|]. repeat split.
Qed.

Lemma import_outcomes_witness :
  exists s, import_module (world (healthy []) dead) = (Ok tt, s) /\
            hooks s = 1%nat /\ alive (trace s) = [0%nat].
Proof.
  destruct (import_outcomes (world (healthy []) dead)) as [_ H].
  cbn [world env_popen] in H.
  destruct H as (s & Hi & _ & _ & Hh & _ & Ha).
  exists s. exact (conj Hi (conj Hh Ha)).
Defined.

(** In every state a program can reach, at most one worker is alive, at no
    earlier moment were two alive, and a live worker is the one the
    simulator holds. *)
Theorem single_worker_invariant (s : state) :
  reachable s ->
  never_two_alive (trace s) = true /\
  (List.length (alive (trace s)) <= 1)%nat /\
  (forall pid, In pid (alive (trace s)) ->
               exists p, _worker s = Some p /\ p_pid p = pid).
Proof.
  intros Hr. destruct (reachable_consistent s Hr) as [Hin Hnever].
  repeat split; [exact Hnever | now apply never_two_alive_length | exact Hin].
Qed.

Lemma single_worker_invariant_witness :
  let s := after (CallPublic OpNewTrack)
                 (after CallRestart (started stubborn (healthy [line "DONE"]))) in
  reachable s /\ never_two_alive (trace s) = true.
Proof.
  intros s.
  assert (Hr : reachable s) by (repeat apply reach_call; apply reach_import).
  destruct (single_worker_invariant s Hr) as [Hn _].
  exact (conj Hr Hn).
Defined.

(** ** After a launch that failed *)

Lemma shut_down_worker (p : proc) (s : state) :
  exists p', _worker (shut_down p s) = Some p' /\ p_pid p' = p_pid p /\
             p_stdin_closed p' = true /\ p_status p' <> Running.
Proof.
  unfold shut_down. destruct (gone_within 10 p); simpl;
    eexists; repeat split; discriminate.
Qed.

(** A restart that cannot launch the replacement raises [SimulatorError]
    after the old worker was shut down and the new port drawn: the simulator
    is left with no live worker, still holding the old, terminated process
    with its stdin closed, and with [port] already changed. *)
Theorem failed_restart_state (s s' : state) (e : exn) (p : proc) :
  reachable s ->
  _worker s = Some p ->
  _restart s = (Raise e, s') ->
  class_of e = CSimulatorError /\
  alive (trace s') = [] /\
  (exists v, port s' = Some v /\ (1025 <= v <= 65535)%Z /\
             In (EvSpawnFailed (carsim_args v)) (trace s')) /\
  (exists p', _worker s' = Some p' /\ p_pid p' = p_pid p /\
              p_stdin_closed p' = true /\ p_status p' <> Running).
Proof.
  intros Hr Hw H.
  pose proof (restart_raises_SimulatorError _ _ _ H) as Hc.
  destruct (alive_before_spawn s (reachable_consistent s Hr)) as [Hnil _].
  revert H. rewrite restart_spec. cbv zeta.
  destruct (env_popen _ _) as [sc|]; [discriminate|].
  intros H. injection H as _ <-. simpl. rewrite Hnil.
  repeat split; try assumption.
  - exists (drawn_port (before_spawn s)).
    repeat split; try apply drawn_port_range. now left.
  - unfold before_spawn. rewrite Hw. apply shut_down_worker.
Qed.

Lemma failed_restart_state_witness :
  let w := {| env_entropy := fun _ => 5%Z;
              env_popen := fun n => match n with
                                    | O => Some (healthy [])
                                    | S _ => None
                                    end |} in
  let s := snd (import_module w) in
  let s' := snd (_restart s) in
  reachable s /\
  (exists e, _restart s = (Raise e, s')) /\
  alive (trace s') = [].
Proof.
  intros w s s'.
  assert (Hr : reachable s) by apply reach_import.
  assert (Hw : exists p, _worker s = Some p) by (eexists; vm_compute; reflexivity).
  destruct Hw as [p Hw].
  assert (He : exists e, _restart s = (Raise e, s'))
    by (eexists; vm_compute; reflexivity).
  destruct He as [e He].
  destruct (failed_restart_state s s' e p Hr Hw He) as (_ & Ha & _).
  split; [exact Hr|]. split; [now exists e | exact Ha].
Defined.

(** ** At exit *)

(** A simulator in service: built by a successful import, so the exit hook
    is registered once and a worker object is held. *)
Definition in_service (s : state) : Prop :=
  consistent s /\ hooks s = 1%nat /\ _worker s <> None.

Lemma hooks_io_stable (k : nat) : io_stable (fun s => hooks s = k).
Proof. intros s p e H _ _. exact H. Qed.

Lemma held_io_stable : io_stable (fun s => _worker s <> None).
Proof. intros s p e _ _ _. discriminate. Qed.

Lemma restart_keeps_hooks_and_worker (s : state) :
  hooks (snd (_restart s)) = hooks s /\
  (_worker s <> None -> _worker (snd (_restart s)) <> None).
Proof.
  rewrite restart_spec. cbv zeta.
  assert (Hb : hooks (before_spawn s) = hooks s /\
               (_worker s <> None -> _worker (before_spawn s) <> None)).
  { unfold before_spawn. destruct (_worker s) as [p|]; [|now split].
    unfold shut_down. destruct (gone_within 10 p); simpl; split;
      try reflexivity; discriminate. }
  destruct Hb as [Hh Hw].
  destruct (env_popen _ _); simpl; split; try exact Hh.
  - discriminate.
  - exact Hw.
Qed.

Lemma shutdown_keeps_hooks (s : state) : hooks (snd (_shutdown s)) = hooks s.
Proof.
  destruct (_worker s) as [p|] eqn:Hw.
  - rewrite (shutdown_some s p Hw). unfold shut_down.
    destruct (gone_within 10 p); reflexivity.
  - now rewrite (shutdown_none s Hw).
Qed.

Lemma keeps_in_service_body (o : operation) : keeps in_service (body o).
Proof.
  intros s (Hc & Hh & Hw). split; [|split].
  - now apply keeps_consistent_body.
  - pose proof (hooks_io_stable 1) as HP. destruct o; simpl.
    + exact (keeps_simulate_body _ HP _ _ _ _ _ s Hh).
    + exact (keeps_race_body _ HP _ s Hh).
    + exact (keeps_new_track_body _ HP s Hh).
  - pose proof held_io_stable as HP. destruct o; simpl.
    + exact (keeps_simulate_body _ HP _ _ _ _ _ s Hw).
    + exact (keeps_race_body _ HP _ s Hw).
    + exact (keeps_new_track_body _ HP s Hw).
Qed.

Lemma keeps_in_service_restart : keeps in_service _restart.
Proof.
  intros s (Hc & Hh & Hw).
  destruct (restart_keeps_hooks_and_worker s) as [H1 H2].
  split; [|split].
  - now apply keeps_consistent_restart.
  - now rewrite H1.
  - now apply H2.
Qed.

Lemma keeps_in_service_shutdown : keeps in_service _shutdown.
Proof.
  intros s (Hc & Hh & Hw). split; [|split].
  - now apply keeps_consistent_shutdown.
  - now rewrite shutdown_keeps_hooks.
  - now apply shutdown_keeps_worker.
Qed.

Lemma keeps_in_service_run_hooks (n : nat) : keeps in_service (run_hooks n).
Proof.
  induction n as [|n IH]; intros s Hs; [exact Hs|].
  simpl. pose proof (keeps_in_service_shutdown s Hs) as H1.
  destruct (_shutdown s) as [r s1]. simpl in H1.
  pose proof (IH s1 H1) as H2.
  destruct (run_hooks n s1) as [rs s2]. exact H2.
Qed.

Lemma keeps_in_service_method (o : operation) :
  keeps in_service (restart_on_broken_pipe (body o)).
Proof.
  unfold restart_on_broken_pipe.
  apply keeps_try_except; [apply keeps_in_service_body|].
  apply keeps_bind; [apply keeps_in_service_restart|].
  intros _. apply keeps_in_service_body.
Qed.

Lemma keeps_in_service_call (c : call) (s : state) :
  in_service s -> in_service (after c s).
Proof.
  intros Hs. destruct c; simpl.
  - rewrite public_decorated. simpl.
    exact (keeps_in_service_method o s Hs).
  - exact (keeps_in_service_method o s Hs).
  - exact (keeps_in_service_restart s Hs).
  - exact (keeps_in_service_shutdown s Hs).
  - unfold interpreter_exit, bind, gets.
    exact (keeps_in_service_run_hooks _ s Hs).
Qed.

Lemma import_in_service (e : environment) (s : state) :
  import_module e = (Ok tt, s) -> in_service s.
Proof.
  intros H. pose proof (consistent_import e) as Hc. rewrite H in Hc.
  pose proof (import_module_cases e) as Hi. cbv zeta in Hi.
  rewrite H in Hi. destruct (env_popen e 0) as [sc|]; [|discriminate Hi].
  injection Hi as ->. split; [exact Hc|]. split; [reflexivity|discriminate].
Qed.

(** The state after a sequence of calls. *)
Definition after_all (calls : list call) (s : state) : state :=
  fold_left (fun s c => after c s) calls s.

(** No worker outlives the program: after a successful import and whatever
    calls follow (operations that succeed or fail, restarts, shutdowns),
    the exit hook runs once, raises nothing, and leaves no worker alive. *)
Theorem exit_leaves_no_worker (e : environment) (s0 : state)
        (calls : list call) :
  import_module e = (Ok tt, s0) ->
  let s := after_all calls s0 in
  fst (interpreter_exit s) = Ok [Ok tt] /\
  alive (trace (snd (interpreter_exit s))) = [].
Proof.
  intros Hi. cbv zeta.
  assert (Hs : in_service (after_all calls s0)).
  { pose proof (import_in_service e s0 Hi) as H0. clear Hi.
    unfold after_all. revert s0 H0.
    induction calls as [|c calls IH]; intros s0 H0; [exact H0|].
    simpl. apply IH. now apply keeps_in_service_call. }
  destruct Hs as (Hc & Hh & Hw).
  unfold interpreter_exit, bind, gets. rewrite Hh.
  destruct (_worker (after_all calls s0)) as [p|] eqn:Hp; [|now elim Hw].
  cbn [run_hooks]. rewrite (shutdown_some _ p Hp). simpl.
  split; [reflexivity|].
  now destruct (alive_shut_down _ p Hc Hp).
Qed.

Lemma exit_leaves_no_worker_witness :
  let e := world stubborn (healthy [line "DONE"]) in
  let s0 := snd (import_module e) in
  import_module e = (Ok tt, s0) /\
  alive (trace (snd (interpreter_exit
                       (after_all [CallRestart; CallPublic OpNewTrack] s0))))
  = [].
Proof.
  intros e s0.
  assert (H : import_module e = (Ok tt, s0)) by (vm_compute; reflexivity).
  destruct (exit_leaves_no_worker e s0 [CallRestart; CallPublic OpNewTrack] H)
    as [_ Ha].
  exact (conj H Ha).
Defined.

(** ** After a shutdown *)

(** The checks and the encoder fail with their own exceptions only. *)
Definition not_pipe {A} (r : result A) : Prop := r <> Raise BrokenPipeError.

Lemma getitem_not_pipe (v : pyval) (i : nat) : not_pipe (getitem v i).
Proof.
  unfold not_pipe, getitem. destruct (items v) as [l|]; [|discriminate].
  destruct (nth_error l i); discriminate.
Qed.

Lemma format_operands_not_pipe (vs : list pyval) : not_pipe (format_operands vs).
Proof.
  unfold not_pipe. induction vs as [|v vs IH]; simpl; [discriminate|].
  destruct v; simpl; try discriminate;
    try (destruct (format_operands vs) as [r|e]; simpl; [discriminate|];
         intros H; apply IH; congruence).
  destruct (float_of_int z); simpl; [|discriminate].
  destruct (format_operands vs) as [r|e]; simpl; [discriminate|].
  intros H; apply IH; congruence.
Qed.

Lemma car_spec_not_pipe (fw us ls lw rw : pyval) :
  not_pipe (_car_spec fw us ls lw rw).
Proof.
  unfold not_pipe, _car_spec, operands.
  repeat match goal with
         | |- rbind (rbind (getitem ?v ?i) _) _ <> _ =>
             let H := fresh in
             pose proof (getitem_not_pipe v i) as H; unfold not_pipe in H;
             destruct (getitem v i); cbn [rbind]; [clear H|congruence]
         end.
  apply format_operands_not_pipe.
Qed.

Lemma check_nums_not_pipe (label : string) (n : nat) (v : pyval) :
  not_pipe (_check_nums label n v).
Proof.
  unfold not_pipe. intros H.
  pose proof (check_nums_assertion _ _ _ _ H). discriminate.
Qed.

Lemma check_each_car_not_pipe (idx : nat) (l : list pyval) :
  not_pipe (check_each_car idx l).
Proof.
  unfold not_pipe. revert idx. induction l as [|car l IH]; intros idx;
    cbn [check_each_car]; [discriminate|].
  unfold unpack5. destruct (items car) as [[|a [|b [|c [|d [|e [|]]]]]]|];
    cbn [rbind]; try discriminate.
  unfold _check_num. destruct (is_num a); cbn [rbind]; [|discriminate].
  repeat match goal with
         | |- rbind (_check_nums ?lb ?n ?v) _ <> _ =>
             let H := fresh in
             pose proof (check_nums_not_pipe lb n v) as H; unfold not_pipe in H;
             destruct (_check_nums lb n v); cbn [rbind]; [clear H|congruence]
         end.
  apply IH.
Qed.

Lemma check_cars_not_pipe (cars : pyval) : not_pipe (_check_cars cars).
Proof.
  unfold not_pipe, _check_cars, py_len.
  destruct (has_len cars); cbn [negb]; [|discriminate].
  destruct (items cars) as [l|]; cbn [rbind]; [|discriminate].
  destruct (negb (Nat.ltb 0 (List.length l))); [discriminate|].
  destruct (negb (Nat.leb (List.length l) 100)); [discriminate|].
  apply check_each_car_not_pipe.
Qed.

Lemma stdin_write_closed (text : string) (s : state) (p : proc) :
  _worker s = Some p -> p_stdin_closed p = true ->
  stdin_write text s = (Raise ValueError, s).
Proof.
  intros Hw Hc. unfold stdin_write, bind, worker. now rewrite Hw, Hc.
Qed.

Lemma body_closed_stdin (o : operation) (s : state) (p : proc) :
  _worker s = Some p -> p_stdin_closed p = true ->
  exists e, body o s = (Raise e, s) /\ e <> BrokenPipeError.
Proof.
  intros Hw Hc. destruct o as [a b c d e|cars|]; simpl.
  - unfold Simulator.simulate_body. cbv beta iota delta [bind lift].
    unfold _check_num. destruct (is_num a);
      [|eexists; split; [reflexivity|discriminate]].
    repeat match goal with
           | |- exists e, match _check_nums ?lb ?n ?v with _ => _ end = _ /\ _ =>
               let H := fresh in
               pose proof (check_nums_not_pipe lb n v) as H;
               unfold not_pipe in H;
               destruct (_check_nums lb n v) as [[]|x];
               [clear H | exists x; split; [reflexivity|congruence]]
           end.
    pose proof (car_spec_not_pipe a b c d e) as H. unfold not_pipe in H.
    destruct (_car_spec a b c d e) as [spec|x];
      [clear H | exists x; split; [reflexivity|congruence]].
    unfold _send, bind. rewrite (stdin_write_closed _ s p Hw Hc).
    eexists; split; [reflexivity|discriminate].
  - unfold Simulator.race_body. unfold bind at 1, lift at 1.
    pose proof (check_cars_not_pipe cars) as H. unfold not_pipe in H.
    destruct (_check_cars cars) as [[]|x] eqn:Hck;
      [clear H | exists x; split; [reflexivity|congruence]].
    destruct (check_cars_ok_inv cars Hck)
      as (l & Hi & _).
    unfold bind at 1. unfold _send_race. unfold bind at 1, worker. rewrite Hw.
    unfold bind at 1, lift at 1, py_len. rewrite Hi.
    unfold bind at 1. rewrite (stdin_write_closed _ s p Hw Hc).
    eexists; split; [reflexivity|discriminate].
  - unfold Simulator.new_track_body. unfold bind at 1.
    rewrite (stdin_write_closed _ s p Hw Hc).
    eexists; split; [reflexivity|discriminate].
Qed.

(** Once the worker has been shut down, its stdin is closed: every public
    operation then fails at once, with the state untouched, and with an
    exception that is not a broken pipe ([ValueError] for [new_track]), so
    the simulator does not launch a new worker. *)
Theorem no_relaunch_after_shutdown (o : operation) (s : state) :
  _worker s <> None ->
  let s1 := snd (_shutdown s) in
  (exists e, public o s1 = (Raise e, s1) /\ e <> BrokenPipeError) /\
  new_track s1 = (Raise ValueError, s1).
Proof.
  intros Hw. cbv zeta.
  destruct (_worker s) as [p|] eqn:Hp; [|now elim Hw].
  rewrite (shutdown_some s p Hp). cbn [snd].
  destruct (shut_down_worker p s) as (p' & Hw' & _ & Hc & _).
  split.
  - destruct (body_closed_stdin o _ p' Hw' Hc) as (e & Hb & He).
    exists e. split; [|exact He].
    rewrite (public_one_attempt o _ _ _ Hb ltac:(congruence)).
    now destruct o.
  - apply (public_one_attempt OpNewTrack _ _ (Raise ValueError));
      [|discriminate].
    simpl. unfold Simulator.new_track_body. unfold bind at 1.
    now rewrite (stdin_write_closed _ _ p' Hw' Hc).
Qed.

Lemma no_relaunch_after_shutdown_witness :
  let s := started (healthy [line "DONE"]) (healthy [line "DONE"]) in
  let s1 := snd (_shutdown s) in
  _worker s <> None /\ new_track s1 = (Raise ValueError, s1).
Proof.
  intros s s1.
  assert (Hw : _worker s <> None) by (vm_compute; discriminate).
  destruct (no_relaunch_after_shutdown OpNewTrack s Hw) as [_ H].
  exact (conj Hw H).
Defined.
